(** * The API gateway of Micro-Services: api-gateway/src/server.js

  A shallow embedding of the request pipeline that server.js wires
  together — rate limiter, request logger, the five proxied mounts and
  their decorators, the error handler — followed by the properties the
  specification states about it.

  The gateway is glue around libraries.  What server.js itself decides
  (options, handlers, decorators, the order of the mounts) is
  transcribed from it; what a library decides is modelled by the
  library's documented behaviour and says so where it is defined. *)

From Stdlib Require Import ZArith Ascii String.
From stdpp Require Import gmap strings list pretty.

(** ** JavaScript values the gateway handles *)

Module Js.

(** [String.prototype.toLowerCase], on the ASCII range. *)
Definition lower_ascii (c : ascii) : ascii :=
  let n := nat_of_ascii c in
  if (65 <=? n)%nat && (n <=? 90)%nat then ascii_of_nat (n + 32) else c.

Fixpoint toLowerCase (s : string) : string :=
  match s with
  | EmptyString => EmptyString
  | String c s' => String (lower_ascii c) (toLowerCase s')
  end.

(** [String.prototype.toUpperCase], on the ASCII range. *)
Definition upper_ascii (c : ascii) : ascii :=
  let n := nat_of_ascii c in
  if (97 <=? n)%nat && (n <=? 122)%nat then ascii_of_nat (n - 32) else c.

Fixpoint toUpperCase (s : string) : string :=
  match s with
  | EmptyString => EmptyString
  | String c s' => String (upper_ascii c) (toUpperCase s')
  end.

(** [s.startsWith(p)] *)
Definition startsWith (s p : string) : bool := String.prefix p s.

(** [s.slice(n)] for [0 <= n] *)
Fixpoint slice (n : nat) (s : string) : string :=
  match n, s with
  | O, _ => s
  | S n', String _ s' => slice n' s'
  | S _, EmptyString => EmptyString
  end.

(** Regular expressions of the shape the gateway uses: a literal,
    optionally anchored at the start with [^], no flags. *)
Record RegExp := { anchored : bool; literal : string }.

(** The leftmost occurrence of [lit] in [s] replaced by [repl]. *)
Fixpoint replace_leftmost (lit repl s : string) : string :=
  if String.prefix lit s then repl +:+ slice (String.length lit) s
  else match s with
       | EmptyString => EmptyString
       | String c s' => String c (replace_leftmost lit repl s')
       end.

(** [s.replace(re, repl)] for a regular expression without the [g]
    flag and a replacement without [$]: only the first match is
    replaced, and an anchored expression can only match at index 0. *)
Definition replace (re : RegExp) (repl s : string) : string :=
  if anchored re then
    if String.prefix (literal re) s
    then repl +:+ slice (String.length (literal re)) s
    else s
  else replace_leftmost (literal re) repl s.

(** An error object; only [err.message] is read. *)
Record Error := { message : string }.

(** The outcome of calling a function that may throw. *)
Inductive Completion (A : Type) :=
| Return (a : A)
| Throw (e : Error).
Arguments Return {A} a.
Arguments Throw {A} e.

(** Reading a property of [undefined] (V8's wording). *)
Definition readOfUndefined (prop : string) : Error :=
  {| message := "Cannot read properties of undefined (reading '" +:+ prop +:+ "')" |}.

(** Values that are logged or sent as JSON.  The gateway never
    calculates: a number is kept as the text JavaScript shows it as. *)
#[warnings="-register-all"]
Inductive Val :=
| Undefined
| Null
| Bool (b : bool)
| Number (shown : string)
| Str (s : string)
| Array (items : list Val)
| Object (fields : list (string * Val)).

(** [Object.hasOwn(o, k)] for an object that came out of [JSON.parse]. *)
Definition hasOwn (k : string) (fields : list (string * Val)) : bool :=
  existsb (fun kv => String.eqb kv.1 k) fields.

(** An object with no callable [toString] and whose [valueOf] gives
    itself back has no primitive value (V8's wording). *)
Definition cannotConvert : Error :=
  {| message := "Cannot convert object to primitive value" |}.

(** Template-literal conversion [`${v}`].  A parsed object has
    [Object.prototype.toString] unless a key of its own named
    [toString] hides it, and no value JSON can hold is callable; an
    array joins its elements with commas, [null] and [undefined] as
    nothing, and throws where an element does. *)
Fixpoint toString (v : Val) : Completion string :=
  match v with
  | Undefined => Return "undefined"
  | Null => Return "null"
  | Bool true => Return "true"
  | Bool false => Return "false"
  | Number shown => Return shown
  | Str s => Return s
  | Object fields =>
      if hasOwn "toString" fields then Throw cannotConvert
      else Return "[object Object]"
  | Array items =>
      (fix join (rest : list Val) (first : bool) : Completion string :=
         match rest with
         | [] => Return ""
         | item :: rest' =>
             let shown :=
               match item with
               | Undefined | Null => Return ""
               | _ => toString item
               end in
             match shown with
             | Throw e => Throw e
             | Return s =>
                 match join rest' false with
                 | Throw e => Throw e
                 | Return r => Return ((if first then "" else ",") +:+ s +:+ r)
                 end
             end
         end) items true
  end.

(** An object with string properties, in insertion order (the order
    [Object.keys] and [for .. in] enumerate). *)
Definition Obj := list (string * string).

(** [o[k]]; [None] is [undefined]. *)
Fixpoint get (k : string) (o : Obj) : option string :=
  match o with
  | [] => None
  | (k', v) :: o' => if String.eqb k k' then Some v else get k o'
  end.

(** [o[k] = v]: an existing property keeps its place, a new one goes
    last. *)
Fixpoint set (k v : string) (o : Obj) : Obj :=
  match o with
  | [] => [(k, v)]
  | (k', v') :: o' =>
      if String.eqb k k' then (k', v) :: o' else (k', v') :: set k v o'
  end.

Definition keys (o : Obj) : list string := o.*1.

End Js.

(** ** Node's HTTP layer *)

Module Node.

(** [IncomingMessage.headers]: one property per header, names in lower
    case. *)
Definition incoming (o : Js.Obj) : bool :=
  forallb (fun k => String.eqb (Js.toLowerCase k) k) (Js.keys o)
  && bool_decide (NoDup (Js.keys o)).

(** [http.request({headers})] calls [setHeader] for each property in
    turn; header names are case-insensitive there, so of two
    properties that differ only in case the later one is sent. *)
Definition sentHeader (name : string) (o : Js.Obj) : option string :=
  fold_left
    (fun sent kv =>
       if String.eqb (Js.toLowerCase kv.1) (Js.toLowerCase name)
       then Some kv.2 else sent)
    o None.

End Node.

(** ** Express *)

Module Express.

(** The request object as the middleware of server.js see it, after
    [cors()], [helmet()] and [express.json()] have run. *)
Record User := { userId : string }.

Record Request := {
  method : string;
  originalUrl : string;          (* the request target, as received *)
  pathname : string;             (* [parseurl(req).pathname], the path Express routes on *)
  ip : string;
  headers : Js.Obj;              (* Node's [IncomingMessage.headers] *)
  body : Js.Val;                 (* the object or array the body is as JSON *)
  entity : list Byte.byte;       (* the bytes of the body, as received *)
  user : option User             (* [req.user], set by [validateToken] *)
}.

Definition withUser (u : User) (req : Request) : Request :=
  {| method := method req; originalUrl := originalUrl req;
     pathname := pathname req; ip := ip req;
     headers := headers req; body := body req; entity := entity req;
     user := Some u |}.

(** [express.json()] has run before: it reads the stream of a request
    whose content type, parameters aside, is [application/json], and
    leaves the stream of any other request unread. *)
Definition isSpace (c : ascii) : bool := Ascii.eqb c " " || Ascii.eqb c "009".

Fixpoint beforeParameters (contentType : string) : string :=
  match contentType with
  | EmptyString => EmptyString
  | String c s => if Ascii.eqb c ";" then EmptyString else String c (beforeParameters s)
  end.

Fixpoint trimStart (s : string) : string :=
  match s with
  | EmptyString => EmptyString
  | String c s' => if isSpace c then trimStart s' else s
  end.

Fixpoint trimEnd (s : string) : string :=
  match s with
  | EmptyString => EmptyString
  | String c s' =>
      match trimEnd s' with
      | EmptyString => if isSpace c then EmptyString else String c EmptyString
      | rest => String c rest
      end
  end.

Definition mediaType (contentType : string) : string :=
  Js.toLowerCase (trimEnd (trimStart (beforeParameters contentType))).

Definition readByJson (req : Request) : bool :=
  match Js.get "content-type" (headers req) with
  | Some contentType => String.eqb (mediaType contentType) "application/json"
  | None => false
  end.

(** What is left in the request stream for a later reader. *)
Definition unread (req : Request) : list Byte.byte :=
  if readByJson req then [] else entity req.

(** [req.body] as the middleware see it: what [express.json()] parsed,
    and [{}] for a request it left alone. *)
Definition bodyOf (req : Request) : Js.Val :=
  if readByJson req then body req else Js.Object [].

(** The path of a request target in origin form, without fragment:
    everything before the query string. *)
Fixpoint pathOf (url : string) : string :=
  match url with
  | EmptyString => EmptyString
  | String c url' => if Ascii.eqb c "?" then EmptyString else String c (pathOf url')
  end.

(** [app.use(mount, ...)]: the mount path matches a request when its
    path starts with it and continues with [/] or ends there.  Routing
    is case-insensitive unless the [case sensitive routing] setting is
    enabled, and server.js leaves it off. *)
Definition mountMatches (mount path : string) : bool :=
  let p := Js.toLowerCase path in
  let m := Js.toLowerCase mount in
  String.prefix m p &&
  match String.get (String.length m) p with
  | None => true
  | Some c => Ascii.eqb c "/"
  end.

(** [res.set(field, value)]: the value Express stores.  A content
    type without a charset parameter gets one when its type is text,
    JSON or JavaScript. *)
Definition isWhite (c : ascii) : bool :=
  existsb (Nat.eqb (nat_of_ascii c)) [9; 10; 11; 12; 13; 32; 160].

Fixpoint skipWhite (s : string) : string :=
  match s with
  | EmptyString => EmptyString
  | String c s' => if isWhite c then skipWhite s' else s
  end.

(** [/;\s*charset\s*=/.test(value)] *)
Fixpoint hasCharset (value : string) : bool :=
  match value with
  | EmptyString => false
  | String c rest =>
      (Ascii.eqb c ";"
       && Js.startsWith (skipWhite rest) "charset"
       && Js.startsWith (skipWhite (Js.slice 7 (skipWhite rest))) "=")
      || hasCharset rest
  end.

(** [/^text\/|^application\/(javascript|json)/.test(type)] *)
Definition textual (type : string) : bool :=
  Js.startsWith type "text/"
  || Js.startsWith type "application/javascript"
  || Js.startsWith type "application/json".

Definition resSet (field value : string) : string :=
  if String.eqb (Js.toLowerCase field) "content-type"
     && negb (hasCharset value)
     && textual (beforeParameters value)
  then value +:+ "; charset=utf-8"
  else value.

End Express.

(** ** What the gateway does to the outside world *)

Inductive Level := Info | Warn | Err.

(** The backends, named after the environment variable holding their
    base URL. *)
Inductive Service :=
| IDENTITY_SERVICE_URL
| POST_SERVICE_URL
| MEDIA_SERVICE_URL
| SEARCH_SERVICE_URL
| PROFILE_SERVICE_URL.

(** express-http-proxy sends either the re-encoded [req.body] or, with
    [parseReqBody: false], the request stream as it is. *)
Inductive OutBody :=
| Encoded (v : Js.Val)
| Piped (bytes : list Byte.byte).

(** [proxyReqOpts], the options of the outbound [http.request]. *)
Record ProxyReq := {
  reqMethod : string;
  reqPath : string;
  reqHeaders : Js.Obj;
  reqBody : OutBody
}.

Definition withHeaders (h : Js.Obj) (o : ProxyReq) : ProxyReq :=
  {| reqMethod := reqMethod o; reqPath := reqPath o; reqHeaders := h;
     reqBody := reqBody o |}.

Definition withPath (p : string) (o : ProxyReq) : ProxyReq :=
  {| reqMethod := reqMethod o; reqPath := p; reqHeaders := reqHeaders o;
     reqBody := reqBody o |}.

(** [proxyRes], the answer of a backend; its data come beside it as
    [proxyResData]. *)
Record ProxyRes := {
  statusCode : nat;
  resHeaders : Js.Obj
}.

(** What becomes of the one call to a backend.  server.js sets no
    timeout: a backend that holds the call open gives no outcome at
    all. *)
Inductive BackendResult :=
| Replied (proxyRes : ProxyRes) (proxyResData : list Byte.byte)
| Failed (err : Js.Error)        (* unreachable, refused, reset, ... *)
| Stalled.                       (* never settles *)

Inductive AuthFailure := Malformed | Invalid | Expired.

Inductive Event :=
| Log (level : Level) (msg : string)
| Outbound (host : Service) (o : ProxyReq)
| SendJson (status : nat) (json : Js.Val)          (* [res.status(s).json(v)] *)
| SendUnauthorized (why : AuthFailure)             (* [validateToken] refusing *)
| SendError (err : Js.Error)                       (* [errorHandler] answering *)
| SendEmpty (status : nat)                         (* [cors()] answering a preflight *)
| Relay (status : nat) (hdrs : Js.Obj) (data : list Byte.byte)
                          (* the proxy's [res.status], [res.set] and [res.send] *)
| NotFound.                                        (* Express's final handler *)

Definition isOutbound (e : Event) : bool :=
  match e with Outbound _ _ => true | _ => false end.

Definition isResponse (e : Event) : bool :=
  match e with
  | SendJson _ _ | SendUnauthorized _ | SendError _ | SendEmpty _ | Relay _ _ _
  | NotFound => true
  | _ => false
  end.

Definition outbound (t : list Event) : list Event := List.filter isOutbound t.
Definition responses (t : list Event) : list Event := List.filter isResponse t.

(** A middleware calls [next()], ends the response, or throws, which
    Express turns into [next(err)]; whichever it does, it leaves a
    trace. *)
Inductive Handled (A : Type) :=
| Next (a : A)
| Ended
| Raised (err : Js.Error).
Arguments Next {A} a.
Arguments Ended {A}.
Arguments Raised {A} err.

Definition Mw (A : Type) : Type := list Event * Handled A.

Definition next {A} (a : A) : Mw A := ([], Next a).
Definition finish {A} (t : list Event) : Mw A := (t, Ended).

Definition andThen {A B} (m : Mw A) (k : A → Mw B) : Mw B :=
  match m with
  | (t, Next a) => let '(t', r) := k a in (t ++ t', r)
  | (t, Ended) => (t, Ended)
  | (t, Raised err) => (t, Raised err)
  end.

Notation "'let!' x := m 'in' k" := (andThen m (fun x => k))
  (at level 10, x name, m at level 100, k at level 200, only parsing).

(** What the gateway relies on from outside: token verification with
    the shared secret, the backends behind the proxy, and the codecs
    the proxy runs bodies through ([JSON.stringify] to bytes, zlib). *)
Inductive Verdict :=
| Verified (subject : string)
| BadSignature
| PastExpiry.

Record World := {
  verify : string → Verdict;
  backend : Service → ProxyReq → BackendResult;
  encode : Js.Val → list Byte.byte;
  gunzip : list Byte.byte → Js.Completion (list Byte.byte);
  gzip : list Byte.byte → list Byte.byte
}.

(** ** The rate limiter *)

Module RateLimit.
Import Express.

Record Counter := { totalHits : nat; resetTime : Z }.

Record Options := {
  windowMs : Z;
  max : nat;
  standardHeaders : bool;
  legacyHeaders : bool;
  handler : Request → list Event
}.

(** Modelled from the spec: the counter store behind the limiter
    (rate-limit-redis over Redis), which is not under src/.  Section 3:
    a counter is keyed by client identity, holds a count and a
    window-expiry timestamp, is created on the first request in a window
    and expires by itself.  Section 4.1: each call increments the
    counter of the identity's current window. *)
Definition increment (window now : Z) (key : string)
    (store : gmap string Counter) : Counter * gmap string Counter :=
  let opened := {| totalHits := 1; resetTime := now + window |} in
  let c :=
    match store !! key with
    | Some c =>
        if (now <? resetTime c)%Z
        then {| totalHits := S (totalHits c); resetTime := resetTime c |}
        else opened
    | None => opened
    end in
  (c, <[key := c]> store).

(** Modelled from the spec: the partition key of express-rate-limit
    when no [keyGenerator] option is given, as in server.js.  Section 9:
    the identity used for quota partitioning is always the network
    address. *)
Definition keyGenerator (req : Request) : string := ip req.

(** Modelled from the spec: the middleware [rateLimit(options)] of
    express-rate-limit, which is not under src/.  Section 4.1: increment
    the counter; if the new count exceeds the max, deny (the [handler]
    answers and nothing further runs), otherwise allow. *)
Definition rateLimit (opts : Options) (now : Z) (store : gmap string Counter)
    (req : Request) : Mw Request * gmap string Counter :=
  let '(c, store') := increment (windowMs opts) now (keyGenerator req) store in
  if (max opts <? totalHits c)%nat
  then (finish (handler opts req), store')
  else (next req, store').

(** Whether the limiter lets the request through. *)
Definition admits (opts : Options) (now : Z) (store : gmap string Counter)
    (req : Request) : bool :=
  match (rateLimit opts now store req).1.2 with
  | Next _ => true
  | _ => false
  end.

(** The limiter's decisions on a sequence of arrivals, each with its
    time of arrival, in order. *)
Fixpoint decisions (opts : Options) (store : gmap string Counter)
    (arrivals : list (Z * Request)) : list (string * bool) :=
  match arrivals with
  | [] => []
  | (now, req) :: rest =>
      (keyGenerator req, admits opts now store req)
      :: decisions opts (rateLimit opts now store req).2 rest
  end.

Definition decisionsFor (client : string) (ds : list (string * bool)) : list bool :=
  (filter (fun d => d.1 = client) ds).*2.

End RateLimit.

(** ** express-http-proxy *)

Module HttpProxy.
Import Express.

Record Options := {
  proxyReqPathResolver : Request → string;
  proxyErrorHandler : Js.Error → list Event;
  proxyReqOptDecorator : ProxyReq → Request → Js.Completion ProxyReq;
  userResDecorator : ProxyRes → list Byte.byte → Request → list Event * list Byte.byte;
  parseReqBody : bool
}.

(** The inbound headers are carried over except the hop-by-hop ones the
    library sets itself. *)
Definition skipHdrs : list string := ["connection"; "content-length"; "host"].

Definition carriedHeaders (req : Request) : Js.Obj :=
  Js.set "connection" "close"
    (List.filter (fun kv => negb (existsb (String.eqb kv.1) skipHdrs)) (headers req)).

(** [req.path] inside a mounted middleware. *)
Definition mountedPath (mount : string) (req : Request) : string :=
  match Js.slice (String.length mount) (pathname req) with
  | EmptyString => "/"
  | p => p
  end.

Definition buildProxyReq (opts : Options) (mount : string) (req : Request) : ProxyReq :=
  {| reqMethod := method req;
     reqPath := mountedPath mount req;
     reqHeaders := carriedHeaders req;
     reqBody := if parseReqBody opts then Encoded (bodyOf req) else Piped (unread req) |}.

(** The last step before sending: a body the proxy encodes itself gets
    its length and the charset it is encoded in ([reqBodyEncoding],
    [utf-8] unless set); a piped one gets neither. *)
Definition prepareProxyReq (W : World) (o : ProxyReq) : ProxyReq :=
  match reqBody o with
  | Encoded v =>
      withHeaders
        (Js.set "Accept-Charset" "utf-8"
           (Js.set "content-length" (pretty (length (encode W v))) (reqHeaders o)))
        o
  | Piped _ => o
  end.

(** The backend's headers copied to the response with [res.set], all
    but [transfer-encoding]. *)
Definition copyProxyResHeaders (proxyRes : ProxyRes) : Js.Obj :=
  map (fun kv => (kv.1, resSet kv.1 kv.2))
    (List.filter (fun kv => negb (String.eqb kv.1 "transfer-encoding"))
       (resHeaders proxyRes)).

(** The proxy unzips a gzip-encoded answer before [userResDecorator]
    sees it, and zips what the decorator returns. *)
Definition zipped (proxyRes : ProxyRes) (data : list Byte.byte) : bool :=
  match Js.get "content-encoding" (resHeaders proxyRes) with
  | Some encoding => String.eqb encoding "gzip" && negb (Nat.eqb (length data) 0)
  | None => false
  end.

(** What the proxy does with the outcome of the one call it makes.  A
    reply has its status and headers copied to the response, goes
    through [userResDecorator] (a 304 does not), and is handed to
    [res.send]; a failure, of the call or of the unzipping, goes to
    [proxyErrorHandler]; without an outcome nothing happens.  What
    [res.send] makes of the answer afterwards (an ETag, a 304 for a
    fresh GET, the final Content-Length) is not part of the trace. *)
Definition settle (W : World) (opts : Options) (req : Request)
    (result : BackendResult) : list Event :=
  match result with
  | Stalled => []
  | Failed err => proxyErrorHandler opts err
  | Replied proxyRes proxyResData =>
      let copied := copyProxyResHeaders proxyRes in
      if Nat.eqb (statusCode proxyRes) 304
      then [Relay (statusCode proxyRes) copied proxyResData]
      else
        match (if zipped proxyRes proxyResData
               then gunzip W proxyResData else Js.Return proxyResData) with
        | Js.Throw err => proxyErrorHandler opts err
        | Js.Return plain =>
            let '(logs, data) := userResDecorator opts proxyRes plain req in
            logs ++ [Relay (statusCode proxyRes)
                       (Js.set "content-length" (pretty (length data)) copied)
                       (if zipped proxyRes data then gzip W data else data)]
        end
  end.

(** [proxy(host, options)]: build the outbound request, decorate it,
    resolve its path, prepare it, send it once and settle.  What a
    decorator throws goes to [proxyErrorHandler] as well. *)
Definition proxy (W : World) (host : Service) (opts : Options)
    (mount : string) (req : Request) : list Event :=
  match proxyReqOptDecorator opts (buildProxyReq opts mount req) req with
  | Js.Throw err => proxyErrorHandler opts err
  | Js.Return decorated =>
      let o := prepareProxyReq W (withPath (proxyReqPathResolver opts req) decorated) in
      Outbound host o :: settle W opts req (backend W host o)
  end.

End HttpProxy.

(** ** server.js *)

Import Express.

(** [const rateLimitOptions = rateLimit({...})] *)
Definition rateLimitOptions : RateLimit.Options :=
  {| RateLimit.windowMs := 15 * 60 * 1000;
     RateLimit.max := 100;
     RateLimit.standardHeaders := true;
     RateLimit.legacyHeaders := false;
     RateLimit.handler := fun req =>
       [ Log Warn ("Sensitive endpoint rate limit exceeded for IP: " +:+ ip req);
         SendJson 429
           (Js.Object [("success", Js.Bool false);
                       ("message", Js.Str "Too many requests")]) ] |}.

(** The logging middleware; at application level [req.url] is the
    original URL.  The second template literal converts [req.body] to a
    string, which can throw. *)
Definition logRequest (req : Request) : Mw Request :=
  let received :=
    Log Info ("Received " +:+ method req +:+ " request to " +:+ originalUrl req) in
  match Js.toString (bodyOf req) with
  | Js.Return shown => ([received; Log Info ("Request body, " +:+ shown)], Next req)
  | Js.Throw err => ([received], Raised err)
  end.

(** Modelled from the spec: [errorHandler] of middleware/errorHandler,
    which is not under src/.  Section 4.5: it catches what earlier
    stages raised and did not answer, and emits a single uniform JSON
    error body with the underlying error detail at a 500-class status;
    it is the terminal handler. *)
Definition errorHandler (err : Js.Error) : list Event := [SendError err].

(** [proxyOptions.proxyReqPathResolver] *)
Definition proxyReqPathResolver (req : Request) : string :=
  Js.replace {| Js.anchored := true; Js.literal := "/v1" |} "/api" (originalUrl req).

(** [proxyOptions.proxyErrorHandler] *)
Definition proxyErrorHandler (err : Js.Error) : list Event :=
  [ Log Err ("Proxy error: " +:+ Js.message err);
    SendJson 500
      (Js.Object [("message", Js.Str "Internal server error");
                  ("error", Js.Str (Js.message err))]) ].

(** [proxyReqOpts.headers[name] = value] *)
Definition assignHeader (name value : string) (o : ProxyReq) : ProxyReq :=
  withHeaders (Js.set name value (reqHeaders o)) o.

(** [srcReq.user.userId] *)
Definition userIdOf (srcReq : Request) : Js.Completion string :=
  match user srcReq with
  | Some u => Js.Return (userId u)
  | None => Js.Throw (Js.readOfUndefined "userId")
  end.

(** The response hooks: log the status, hand the data back. *)
Definition logResponse (service : string) (proxyRes : ProxyRes)
    (proxyResData : list Byte.byte) (userReq : Request) : list Event * list Byte.byte :=
  ([ Log Info ("Response received from " +:+ service +:+ " Service: "
               +:+ pretty (statusCode proxyRes)) ],
   proxyResData).

(** [/v1/auth] *)
Definition identityOptions : HttpProxy.Options :=
  {| HttpProxy.proxyReqPathResolver := proxyReqPathResolver;
     HttpProxy.proxyErrorHandler := proxyErrorHandler;
     HttpProxy.proxyReqOptDecorator := fun proxyReqOpts srcReq =>
       Js.Return (assignHeader "Content-Type" "application/json" proxyReqOpts);
     HttpProxy.userResDecorator := logResponse "Identity";
     HttpProxy.parseReqBody := true |}.

(** [/v1/posts] *)
Definition postOptions : HttpProxy.Options :=
  {| HttpProxy.proxyReqPathResolver := proxyReqPathResolver;
     HttpProxy.proxyErrorHandler := proxyErrorHandler;
     HttpProxy.proxyReqOptDecorator := fun proxyReqOpts srcReq =>
       let proxyReqOpts := assignHeader "Content-Type" "application/json" proxyReqOpts in
       match userIdOf srcReq with
       | Js.Throw e => Js.Throw e
       | Js.Return id => Js.Return (assignHeader "x-user-id" id proxyReqOpts)
       end;
     HttpProxy.userResDecorator := logResponse "Post";
     HttpProxy.parseReqBody := true |}.

(** [/v1/media] *)
Definition mediaOptions : HttpProxy.Options :=
  {| HttpProxy.proxyReqPathResolver := proxyReqPathResolver;
     HttpProxy.proxyErrorHandler := proxyErrorHandler;
     HttpProxy.proxyReqOptDecorator := fun proxyReqOpts srcReq =>
       match userIdOf srcReq with
       | Js.Throw e => Js.Throw e
       | Js.Return id =>
           let proxyReqOpts := assignHeader "x-user-id" id proxyReqOpts in
           match Js.get "content-type" (headers srcReq) with
           | None => Js.Throw (Js.readOfUndefined "startsWith")
           | Some contentType =>
               if negb (Js.startsWith contentType "multipart/form-data")
               then Js.Return (assignHeader "Content-Type" "application/json" proxyReqOpts)
               else Js.Return proxyReqOpts
           end
       end;
     HttpProxy.userResDecorator := logResponse "Media";
     HttpProxy.parseReqBody := false |}.

(** [/v1/search] *)
Definition searchOptions : HttpProxy.Options :=
  {| HttpProxy.proxyReqPathResolver := proxyReqPathResolver;
     HttpProxy.proxyErrorHandler := proxyErrorHandler;
     HttpProxy.proxyReqOptDecorator := fun proxyReqOpts srcReq =>
       let proxyReqOpts := assignHeader "Content-Type" "application/json" proxyReqOpts in
       match userIdOf srcReq with
       | Js.Throw e => Js.Throw e
       | Js.Return id => Js.Return (assignHeader "x-user-id" id proxyReqOpts)
       end;
     HttpProxy.userResDecorator := logResponse "Search";
     HttpProxy.parseReqBody := true |}.

(** [/v1/profile] *)
Definition profileOptions : HttpProxy.Options :=
  {| HttpProxy.proxyReqPathResolver := proxyReqPathResolver;
     HttpProxy.proxyErrorHandler := proxyErrorHandler;
     HttpProxy.proxyReqOptDecorator := fun proxyReqOpts srcReq =>
       let proxyReqOpts := assignHeader "Content-Type" "application/json" proxyReqOpts in
       match userIdOf srcReq with
       | Js.Throw e => Js.Throw e
       | Js.Return id => Js.Return (assignHeader "x-user-id" id proxyReqOpts)
       end;
     HttpProxy.userResDecorator := logResponse "Profile";
     HttpProxy.parseReqBody := true |}.

(** Modelled from the spec: the credential [validateToken] reads, in
    middleware/authMiddleware, which is not under src/.  Section 4.2:
    extract a bearer token from the request's authorization header;
    absent or not in the expected scheme, there is none. *)
Definition bearerToken (req : Request) : option string :=
  match Js.get "authorization" (headers req) with
  | Some credential =>
      if Js.startsWith credential "Bearer " then Some (Js.slice 7 credential) else None
  | None => None
  end.

(** Modelled from the spec: [validateToken] of middleware/authMiddleware,
    which is not under src/.  Section 4.2: [malformed] without a bearer
    token; verify signature and expiry, [invalid] on a signature
    mismatch, [expired] on a past expiry; on success attach the subject
    to the request as its identity.  Section 7: an auth failure is
    terminal, nothing is forwarded. *)
Definition validateToken (W : World) (req : Request) : Mw Request :=
  match bearerToken req with
  | None => finish [SendUnauthorized Malformed]
  | Some token =>
      match verify W token with
      | Verified subject => next (withUser {| userId := subject |} req)
      | BadSignature => finish [SendUnauthorized Invalid]
      | PastExpiry => finish [SendUnauthorized Expired]
      end
  end.

(** The five [app.use(path, [validateToken,] proxy(host, options))], in
    the order of server.js. *)
Record Mount := {
  path : string;
  guarded : bool;                 (* [validateToken] before the proxy *)
  host : Service;
  options : HttpProxy.Options
}.

Definition mounts : list Mount :=
  [ {| path := "/v1/auth"; guarded := false;
       host := IDENTITY_SERVICE_URL; options := identityOptions |};
    {| path := "/v1/posts"; guarded := true;
       host := POST_SERVICE_URL; options := postOptions |};
    {| path := "/v1/media"; guarded := true;
       host := MEDIA_SERVICE_URL; options := mediaOptions |};
    {| path := "/v1/search"; guarded := true;
       host := SEARCH_SERVICE_URL; options := searchOptions |};
    {| path := "/v1/profile"; guarded := true;
       host := PROFILE_SERVICE_URL; options := profileOptions |} ].

(** The first mount whose path matches handles the request; with none,
    Express answers 404. *)
Definition routeOf (req : Request) : option Mount :=
  List.find (fun m => mountMatches (path m) (pathname req)) mounts.

Definition throughMount (W : World) (m : Mount) (req : Request) : Mw Request :=
  let! req := (if guarded m then validateToken W req else next req) in
  finish (HttpProxy.proxy W (host m) (options m) (path m) req).

Definition dispatch (W : World) (req : Request) : Mw Request :=
  match routeOf req with
  | Some m => throughMount W m req
  | None => finish [NotFound]
  end.

(** What Express does when the chain is over: an error nobody answered
    goes to the error-handling middleware, mounted last. *)
Definition concluded (m : Mw Request) : list Event :=
  match m with
  | (t, Raised err) => t ++ errorHandler err
  | (t, _) => t
  end.

(** One request through the application from the limiter on, arriving
    there at time [now] (in milliseconds): the limiter, the logger, the
    mounts, the error handler.  The result is what the gateway did and
    the counter store it leaves.  [cors()], [helmet()] and
    [express.json()] have run before, see [app] below; the headers they
    and the limiter's [standardHeaders] put on every response are not
    part of the trace. *)
Definition gateway (W : World) (now : Z) (store : gmap string RateLimit.Counter)
    (req : Request) : list Event * gmap string RateLimit.Counter :=
  let '(admitted, store') := RateLimit.rateLimit rateLimitOptions now store req in
  (concluded
     (let! req := admitted in
      let! req := logRequest req in
      dispatch W req),
   store').

(** A request as it arrives at the application, before any middleware:
    with what [express.json()] will raise for its body, if anything (a
    body that is not JSON though its content type says so, too large,
    in a charset or an encoding the parser does not read). *)
Record Arrival := {
  received : Request;
  rejected : option Js.Error
}.

(** [app.use(cors())]: with the default options [cors()] answers every
    OPTIONS request itself, 204 and no body, and calls [next()] for any
    other. *)
Definition preflight (req : Request) : bool :=
  String.eqb (Js.toUpperCase (method req)) "OPTIONS".

Definition reachesLimiter (a : Arrival) : bool :=
  negb (preflight (received a))
  && match rejected a with None => true | Some _ => false end.

(** The whole application, in the order of server.js: [cors()],
    [helmet()], which only sets headers, [express.json()], then the
    limiter and what follows it.  What [express.json()] raises goes to
    [next(err)], past the limiter, the logger and the mounts, to the
    error handler. *)
Definition app (W : World) (now : Z) (store : gmap string RateLimit.Counter)
    (a : Arrival) : list Event * gmap string RateLimit.Counter :=
  if preflight (received a) then ([SendEmpty 204], store)
  else
    match rejected a with
    | Some err => (errorHandler err, store)
    | None => gateway W now store (received a)
    end.

(** ** Notions the statements use *)

(** The subject of the credential a request carries, when it carries a
    valid one. *)
Definition subjectOf (W : World) (req : Request) : option string :=
  match bearerToken req with
  | Some token =>
      match verify W token with
      | Verified subject => Some subject
      | _ => None
      end
  | None => None
  end.

(** The mounts behind [validateToken]. *)
Definition guardedPaths : list string :=
  ["/v1/posts"; "/v1/media"; "/v1/search"; "/v1/profile"].

(** The rewrite in the words of the specification: strip the prefix the
    gateway faces and put the prefix the backends face in its place,
    the remainder verbatim. *)
Fixpoint stripPrefix (prefix s : string) : option string :=
  match prefix, s with
  | EmptyString, _ => Some s
  | String a prefix', String b s' =>
      if Ascii.eqb a b then stripPrefix prefix' s' else None
  | String _ _, EmptyString => None
  end.

Definition substitutePrefix (gatewayFacing backendFacing url : string) : string :=
  match stripPrefix gatewayFacing url with
  | Some remainder => backendFacing +:+ remainder
  | None => url
  end.

(** A header object in which [n] can only be spelled one way. *)
Definition unambiguous (n : string) (o : Js.Obj) : Prop :=
  NoDup (Js.keys o) ∧ ∀ k, k ∈ Js.keys o → Js.toLowerCase k = n → k = n.

Definition isLog (e : Event) : bool :=
  match e with Log _ _ => true | _ => false end.

Definition tooManyRequests : Js.Val :=
  Js.Object [("success", Js.Bool false); ("message", Js.Str "Too many requests")].

Definition internalServerError (detail : string) : Js.Val :=
  Js.Object [("message", Js.Str "Internal server error"); ("error", Js.Str detail)].

(** What the response has of the backend's headers: each with its
    value, apart from [transfer-encoding], which is left out, from
    [content-length], which is set anew, and from [content-type], which
    may have gained a charset parameter. *)
Definition headersRelayed (proxyRes : ProxyRes) (hdrs : Js.Obj) : Prop :=
  (∀ k v, k ≠ "transfer-encoding" → k ≠ "content-length" →
          Js.toLowerCase k ≠ "content-type" →
          Js.get k (resHeaders proxyRes) = Some v → Js.get k hdrs = Some v)
  ∧ (∀ v, Js.get "content-type" (resHeaders proxyRes) = Some v →
          ∃ v', Js.get "content-type" hdrs = Some v'
                ∧ String.prefix v v' = true
                ∧ (hasCharset v = true → v' = v))
  ∧ Js.get "transfer-encoding" hdrs = None.

(** The logger gets through: [req.body] converts to a string. *)
Definition printable (req : Request) : Prop :=
  ∃ shown, Js.toString (bodyOf req) = Js.Return shown.

(** How a guarded or an open mount lets a request in: as it is, or
    with the identity [validateToken] attached. *)
Definition entered (W : World) (m : Mount) (req req' : Request) : Prop :=
  (guarded m = false ∧ req' = req)
  ∨ (guarded m = true
     ∧ ∃ subject, subjectOf W req = Some subject
                  ∧ req' = withUser {| userId := subject |} req).

(** What a mount sends for a request it let in as [req'] and decorated. *)
Definition sentFor (W : World) (req' : Request) (decorated : ProxyReq) : ProxyReq :=
  HttpProxy.prepareProxyReq W (withPath (proxyReqPathResolver req') decorated).

(** The ways of a request through the gateway, each with the trace it
    leaves. *)
Inductive Journey (W : World) (now : Z) (store : gmap string RateLimit.Counter)
    (req : Request) : list Event → Prop :=
| Denied :
    RateLimit.admits rateLimitOptions now store req = false →
    Journey W now store req (RateLimit.handler rateLimitOptions req)
| Unprinted err :
    RateLimit.admits rateLimitOptions now store req = true →
    Js.toString (bodyOf req) = Js.Throw err →
    Journey W now store req ((logRequest req).1 ++ errorHandler err)
| Unrouted :
    RateLimit.admits rateLimitOptions now store req = true →
    printable req →
    routeOf req = None →
    Journey W now store req ((logRequest req).1 ++ [NotFound])
| Refused m why :
    RateLimit.admits rateLimitOptions now store req = true →
    printable req →
    routeOf req = Some m →
    guarded m = true →
    subjectOf W req = None →
    Journey W now store req ((logRequest req).1 ++ [SendUnauthorized why])
| Threw m req' err :
    RateLimit.admits rateLimitOptions now store req = true →
    printable req →
    routeOf req = Some m →
    entered W m req req' →
    HttpProxy.proxyReqOptDecorator (options m)
      (HttpProxy.buildProxyReq (options m) (path m) req') req' = Js.Throw err →
    Journey W now store req ((logRequest req).1 ++ proxyErrorHandler err)
| Sent m req' decorated :
    RateLimit.admits rateLimitOptions now store req = true →
    printable req →
    routeOf req = Some m →
    entered W m req req' →
    HttpProxy.proxyReqOptDecorator (options m)
      (HttpProxy.buildProxyReq (options m) (path m) req') req' = Js.Return decorated →
    Journey W now store req
      ((logRequest req).1
       ++ Outbound (host m) (sentFor W req' decorated)
          :: HttpProxy.settle W (options m) req'
               (backend W (host m) (sentFor W req' decorated))).

(** ** A concrete world to run the gateway in *)

Module Demo.

Definition bytes : list Byte.byte := [Byte.x2d; Byte.x2d; Byte.x61; Byte.x0d; Byte.x0a].

(** One token is good and belongs to [u42]; one has expired. *)
Definition verifier (token : string) : Verdict :=
  if String.eqb token "good" then Verified "u42"
  else if String.eqb token "old" then PastExpiry
  else BadSignature.

Definition notFound : ProxyRes :=
  {| statusCode := 404; resHeaders := [("content-type", "text/plain"); ("x-trace", "abc")] |}.

(** Every body encodes to two bytes; nothing is compressed. *)
Definition twoBytes (v : Js.Val) : list Byte.byte := [Byte.x7b; Byte.x7d].

(** Every backend answers 404. *)
Definition up : World :=
  {| verify := verifier; backend := fun _ _ => Replied notFound bytes;
     encode := twoBytes; gunzip := Js.Return; gzip := fun data => data |}.

(** Every backend is unreachable. *)
Definition down : World :=
  {| verify := verifier;
     backend := fun _ _ => Failed {| Js.message := "connect ECONNREFUSED" |};
     encode := twoBytes; gunzip := Js.Return; gzip := fun data => data |}.

Definition request (url : string) (client : string) (hdrs : Js.Obj) : Request :=
  {| method := "POST"; originalUrl := url; pathname := pathOf url; ip := client;
     headers := hdrs; body := Js.Object []; entity := bytes; user := None |}.

Definition credential : string * string := ("authorization", "Bearer good").

Definition multipart : string := "multipart/form-data; boundary=xyz".

Definition exhausted : gmap string RateLimit.Counter :=
  {[ "10.0.0.7" := {| RateLimit.totalHits := 100; RateLimit.resetTime := 900000 |} ]}.

Definition posts42 : Request :=
  request "/v1/posts/42?x=1" "10.0.0.7" [credential; ("host", "gateway")].

Definition anonymous : Request :=
  request "/v1/posts/42?x=1" "10.0.0.7" [("host", "gateway")].

Definition neighbour : Request :=
  request "/v1/auth/login" "10.0.0.8" [("host", "gateway")].

Definition upload : Request :=
  request "/v1/media/upload" "10.0.0.7" [credential; ("content-type", multipart)].

Definition uploadText : Request :=
  request "/v1/media/upload" "10.0.0.7" [credential; ("content-type", "text/plain")].

(** An authenticated request to the media mount without a Content-Type,
    as a GET usually is. *)
Definition listing : Request :=
  {| method := "GET"; originalUrl := "/v1/media/get"; pathname := "/v1/media/get";
     ip := "10.0.0.7";
     headers := [credential; ("host", "gateway")];
     body := Js.Object []; entity := []; user := None |}.

(** What the gateway sends to the post service for [posts42]. *)
Definition forwarded : ProxyReq :=
  {| reqMethod := "POST";
     reqPath := "/api/posts/42?x=1";
     reqHeaders := [ ("authorization", "Bearer good"); ("connection", "close");
                     ("Content-Type", "application/json"); ("x-user-id", "u42");
                     ("content-length", "2"); ("Accept-Charset", "utf-8") ];
     reqBody := Encoded (Js.Object []) |}.

(** One request of a neighbour, then 101 of the same client, all within
    a second. *)
Definition burst : list (Z * Request) :=
  (3%Z, neighbour) :: replicate 101 (5%Z, posts42).

End Demo.

(** ** The gateway over time *)

(** The gateway serving a sequence of arrivals one after the other, the
    counter store handed from each to the next; every request is paired
    with the trace it left. *)
Fixpoint serve (W : World) (store : gmap string RateLimit.Counter)
    (arrivals : list (Z * Request)) : list (Request * list Event) :=
  match arrivals with
  | [] => []
  | (now, req) :: rest =>
      (req, (gateway W now store req).1)
      :: serve W (gateway W now store req).2 rest
  end.

(** The backend calls made on behalf of one client address. *)
Definition callsFor (client : string) (served : list (Request * list Event)) : list Event :=
  concat (map (fun rt => outbound rt.2)
            (List.filter (fun rt => String.eqb (ip rt.1) client) served)).

(** The arrivals of one client address. *)
Definition arrivalsOf (client : string) (arrivals : list (Z * Request)) : list (Z * Request) :=
  List.filter (fun a => String.eqb (ip a.2) client) arrivals.

(** The header names the decorators of server.js assign, and the ones
    the proxy does not carry over. *)
Definition decoratedNames : list string := ["content-type"; "x-user-id"].

(** The names of the headers the proxy assigns itself for a body it
    encodes. *)
Definition preparedNames : list string := ["content-length"; "accept-charset"].

(** ** More requests to run the gateway on *)

Module Probe.

(** A login that claims an identity for itself. *)
Definition login : Request :=
  Demo.request "/v1/auth/login" "10.0.0.9"
    [ ("host", "gateway"); ("content-type", Demo.multipart);
      ("x-user-id", "admin"); ("x-request-id", "r-1") ].

Definition loginSent : ProxyReq :=
  {| reqMethod := "POST";
     reqPath := "/api/auth/login";
     reqHeaders := [ ("content-type", Demo.multipart); ("x-user-id", "admin");
                     ("x-request-id", "r-1"); ("connection", "close");
                     ("Content-Type", "application/json");
                     ("content-length", "2"); ("Accept-Charset", "utf-8") ];
     reqBody := Encoded (Js.Object []) |}.

(** The version prefix in capitals. *)
Definition shouted : Request :=
  Demo.request "/V1/posts/42?x=1" "10.0.0.9" [Demo.credential].

Definition shoutedSent : ProxyReq :=
  {| reqMethod := "POST";
     reqPath := "/V1/posts/42?x=1";
     reqHeaders := [ ("authorization", "Bearer good"); ("connection", "close");
                     ("Content-Type", "application/json"); ("x-user-id", "u42");
                     ("content-length", "2"); ("Accept-Charset", "utf-8") ];
     reqBody := Encoded (Js.Object []) |}.

(** The same on the mount that asks for no credential. *)
Definition shoutedLogin : Request :=
  Demo.request "/V1/auth/login?next=1" "10.0.0.9" [("host", "gateway")].

Definition shoutedLoginSent : ProxyReq :=
  {| reqMethod := "POST";
     reqPath := "/V1/auth/login?next=1";
     reqHeaders := [ ("connection", "close"); ("Content-Type", "application/json");
                     ("content-length", "2"); ("Accept-Charset", "utf-8") ];
     reqBody := Encoded (Js.Object []) |}.

(** A path next to a mount, under none. *)
Definition stray : Request :=
  Demo.request "/v1/postsx/42" "10.0.0.9" [Demo.credential].

(** What the gateway has forwarded once: its own output as a URL. *)
Definition again : Request :=
  Demo.request "/api/posts/42?x=1" "10.0.0.9" [Demo.credential].

(** A preflight, and a body that is not the JSON it says it is. *)
Definition preflighted : Arrival :=
  {| received :=
       {| method := "OPTIONS"; originalUrl := "/v1/posts"; pathname := "/v1/posts";
          ip := "10.0.0.7"; headers := [("host", "gateway")];
          body := Js.Object []; entity := []; user := None |};
     rejected := None |}.

Definition garbled : Arrival :=
  {| received :=
       {| method := "POST"; originalUrl := "/v1/auth/login";
          pathname := "/v1/auth/login"; ip := "10.0.0.7";
          headers := [("content-type", "application/json"); ("content-length", "1")];
          body := Js.Object []; entity := [Byte.x7b]; user := None |};
     rejected := Some {| Js.message := "Unexpected end of JSON input" |} |}.

(** [Demo.posts42] arriving with a body the parser takes. *)
Definition arrived : Arrival := {| received := Demo.posts42; rejected := None |}.

(** A request target in absolute form, which Express routes by its
    path. *)
Definition absolute : Request :=
  {| method := "GET"; originalUrl := "http://gateway/v1/posts/42";
     pathname := "/v1/posts/42"; ip := "10.0.0.9";
     headers := [Demo.credential; ("host", "gateway")];
     body := Js.Object []; entity := []; user := None |}.

(** A JSON body with a key named [toString]. *)
Definition hiding : Request :=
  {| method := "POST"; originalUrl := "/v1/auth/login"; pathname := "/v1/auth/login";
     ip := "10.0.0.9";
     headers := [("content-type", "application/json"); ("content-length", "14")];
     body := Js.Object [("toString", Js.Number "1")];
     entity := []; user := None |}.

(** What the post service answers [Demo.posts42] with, as the proxy
    hands it to the response. *)
Definition relayed : Event :=
  Relay 404
    [ ("content-type", "text/plain; charset=utf-8"); ("x-trace", "abc");
      ("content-length", "5") ]
    Demo.bytes.

End Probe.



(** * Properties *)

(** ** Strings *)

Section Strings.

Lemma prefix_inv (p s : string) :
  String.prefix p s = true → ∃ r, s = p +:+ r.
Proof.
  revert s. induction p as [|a p IH]; intros s H.
  - exists s. reflexivity.
  - destruct s as [|b s]; [discriminate|].
    simpl in H. destruct (ascii_dec a b) as [->|]; [|discriminate].
    destruct (IH _ H) as [r ->]. exists r. reflexivity.
Qed.

Lemma prefix_append (p r : string) : String.prefix p (p +:+ r) = true.
Proof.
  induction p as [|a p IH]; simpl.
  - destruct r; reflexivity.
  - destruct (ascii_dec a a); [exact IH|congruence].
Qed.

Lemma slice_append (p r : string) : Js.slice (String.length p) (p +:+ r) = r.
Proof. induction p as [|a p IH]; simpl; [reflexivity|exact IH]. Qed.

Lemma stripPrefix_append (p r : string) : stripPrefix p (p +:+ r) = Some r.
Proof.
  induction p as [|a p IH]; simpl; [reflexivity|].
  rewrite Ascii.eqb_refl. exact IH.
Qed.

Lemma stripPrefix_prefix (p s : string) :
  stripPrefix p s = None → String.prefix p s = false.
Proof.
  revert s. induction p as [|a p IH]; intros s; simpl; [discriminate|].
  destruct s as [|b s]; simpl; [reflexivity|].
  destruct (Ascii.eqb_spec a b) as [->|Hne].
  - intros H. destruct (ascii_dec b b); [apply IH, H|congruence].
  - intros _. destruct (ascii_dec a b); [congruence|reflexivity].
Qed.

(** The anchored replace of the source is the substitution the
    specification words. *)
Lemma replace_anchored (lit repl s : string) :
  Js.replace {| Js.anchored := true; Js.literal := lit |} repl s
  = substitutePrefix lit repl s.
Proof.
  unfold Js.replace, substitutePrefix. simpl.
  destruct (stripPrefix lit s) as [rest|] eqn:E.
  - assert (s = lit +:+ rest) as ->.
    { revert s E. induction lit as [|a lit IH]; intros s E.
      - destruct s; simpl in E; injection E as <-; reflexivity.
      - destruct s as [|b s]; simpl in E; [discriminate|].
        destruct (Ascii.eqb_spec a b) as [->|]; [|discriminate].
        change (String b s = String b (lit +:+ rest)). f_equal. auto. }
    rewrite prefix_append, slice_append. reflexivity.
  - rewrite (stripPrefix_prefix _ _ E). reflexivity.
Qed.

Lemma resolver_spec (req : Request) :
  proxyReqPathResolver req = substitutePrefix "/v1" "/api" (originalUrl req).
Proof. apply replace_anchored. Qed.

Lemma resolver_v1 (req : Request) (rest : string) :
  originalUrl req = "/v1" +:+ rest → proxyReqPathResolver req = "/api" +:+ rest.
Proof.
  intros E. rewrite resolver_spec, E. unfold substitutePrefix.
  rewrite stripPrefix_append. reflexivity.
Qed.

Lemma lower_ascii_idem (c : ascii) :
  Js.lower_ascii (Js.lower_ascii c) = Js.lower_ascii c.
Proof. destruct c as [[] [] [] [] [] [] [] []]; reflexivity. Qed.

Lemma toLowerCase_idem (s : string) :
  Js.toLowerCase (Js.toLowerCase s) = Js.toLowerCase s.
Proof.
  induction s as [|c s IH]; simpl; [reflexivity|].
  rewrite lower_ascii_idem, IH. reflexivity.
Qed.

End Strings.

(** ** Objects and the headers Node sends *)

Section Objects.

Implicit Types (o : Js.Obj) (k v name : string).

Lemma get_set_eq k v o : Js.get k (Js.set k v o) = Some v.
Proof.
  induction o as [|[k' v'] o IH]; simpl.
  - rewrite String.eqb_refl. reflexivity.
  - destruct (String.eqb_spec k k') as [->|Hne]; simpl.
    + rewrite String.eqb_refl. reflexivity.
    + apply String.eqb_neq in Hne. rewrite Hne. exact IH.
Qed.

Lemma get_set_ne k k' v o : k ≠ k' → Js.get k' (Js.set k v o) = Js.get k' o.
Proof.
  intros Hne. induction o as [|[k0 v0] o IH]; simpl.
  - destruct (String.eqb_spec k' k); [congruence|reflexivity].
  - destruct (String.eqb_spec k k0) as [->|]; simpl.
    + destruct (String.eqb_spec k' k0); [congruence|reflexivity].
    + rewrite IH. reflexivity.
Qed.

Lemma get_filter (keep : string → bool) k o :
  keep k = true →
  Js.get k (List.filter (fun kv => keep kv.1) o) = Js.get k o.
Proof.
  intros Hk. induction o as [|[k' v'] o IH]; simpl; [reflexivity|].
  destruct (keep k') eqn:E; simpl.
  - rewrite IH. reflexivity.
  - destruct (String.eqb_spec k k') as [->|]; [congruence|exact IH].
Qed.

Lemma get_None_keys k o : k ∉ Js.keys o → Js.get k o = None.
Proof.
  induction o as [|[k' v'] o IH]; simpl; [reflexivity|].
  intros Hn. destruct (String.eqb_spec k k') as [->|].
  - exfalso. apply Hn. left.
  - apply IH. intros Hin. apply Hn. right. exact Hin.
Qed.

Lemma set_fresh k v o : k ∉ Js.keys o → Js.set k v o = o ++ [(k, v)].
Proof.
  induction o as [|[k' v'] o IH]; simpl; [reflexivity|].
  intros Hn. destruct (String.eqb_spec k k') as [->|].
  - exfalso. apply Hn. left.
  - rewrite IH; [reflexivity|]. intros Hin. apply Hn. right. exact Hin.
Qed.

Lemma keys_set k v o k' : k' ∈ Js.keys (Js.set k v o) → k' = k ∨ k' ∈ Js.keys o.
Proof.
  induction o as [|[k0 v0] o IH]; simpl.
  - intros H. apply list_elem_of_singleton in H. left. exact H.
  - destruct (String.eqb_spec k k0) as [->|]; simpl; intros H.
    + right. exact H.
    + apply elem_of_cons in H as [->|H].
      * right. left.
      * destruct (IH H) as [->|Hin]; [left; reflexivity|right; right; exact Hin].
Qed.

Lemma keys_set_NoDup k v o : NoDup (Js.keys o) → NoDup (Js.keys (Js.set k v o)).
Proof.
  induction o as [|[k0 v0] o IH]; simpl.
  - intros _. apply NoDup_singleton.
  - intros Hnd. apply NoDup_cons in Hnd as [Hn Hnd].
    destruct (String.eqb_spec k k0) as [->|Hne]; simpl.
    + apply NoDup_cons. split; assumption.
    + apply NoDup_cons. split; [|auto].
      intros Hin. apply keys_set in Hin as [->|Hin]; [congruence|auto].
Qed.

Lemma keys_filter (keep : string * string → bool) o k :
  k ∈ Js.keys (List.filter keep o) → k ∈ Js.keys o.
Proof.
  induction o as [|kv o IH]; simpl; [auto|].
  destruct (keep kv); simpl; intros H.
  - apply elem_of_cons in H as [->|H]; [left|right; auto].
  - right. auto.
Qed.

Lemma keys_filter_NoDup (keep : string * string → bool) o :
  NoDup (Js.keys o) → NoDup (Js.keys (List.filter keep o)).
Proof.
  induction o as [|kv o IH]; simpl; [auto|].
  intros Hnd. apply NoDup_cons in Hnd as [Hn Hnd].
  destruct (keep kv); simpl; [|auto].
  apply NoDup_cons. split; [|auto].
  intros Hin. apply Hn. eapply keys_filter, Hin.
Qed.

Lemma unambiguous_set n k v o :
  unambiguous n o → (Js.toLowerCase k = n → k = n) → unambiguous n (Js.set k v o).
Proof.
  intros [Hnd Hex] Hk. split; [apply keys_set_NoDup, Hnd|].
  intros k' Hin. apply keys_set in Hin as [->|Hin]; auto.
Qed.

Lemma unambiguous_filter n (keep : string * string → bool) o :
  unambiguous n o → unambiguous n (List.filter keep o).
Proof.
  intros [Hnd Hex]. split; [apply keys_filter_NoDup, Hnd|].
  intros k Hin. apply Hex. eapply keys_filter, Hin.
Qed.

Lemma incoming_lower o k :
  Node.incoming o = true → k ∈ Js.keys o → Js.toLowerCase k = k.
Proof.
  unfold Node.incoming. intros H Hin.
  apply andb_prop in H as [H _].
  rewrite forallb_forall in H.
  apply String.eqb_eq, H, list_elem_of_In, Hin.
Qed.

Lemma incoming_unambiguous name o :
  Node.incoming o = true → unambiguous (Js.toLowerCase name) o.
Proof.
  intros H. split.
  - unfold Node.incoming in H. apply andb_prop in H as [_ H].
    apply bool_decide_eq_true in H. exact H.
  - intros k Hin E. rewrite <- E. symmetry. eapply incoming_lower; eauto.
Qed.

Lemma sentHeader_fold n o (sent : option string) :
  Js.toLowerCase n = n →
  unambiguous n o →
  fold_left
    (fun sent kv => if String.eqb (Js.toLowerCase kv.1) n then Some kv.2 else sent)
    o sent
  = match Js.get n o with Some v => Some v | None => sent end.
Proof.
  intros Hn. revert sent.
  induction o as [|[k v] o IH]; intros sent [Hnd Hex]; simpl; [reflexivity|].
  apply NoDup_cons in Hnd as [Hfresh Hnd]. simpl in Hfresh.
  rewrite IH.
  2:{ split; [exact Hnd|]. intros k' Hin. apply Hex. right. exact Hin. }
  destruct (String.eqb_spec (Js.toLowerCase k) n) as [E|E].
  - assert (k = n) as -> by (apply Hex; [left|exact E]).
    rewrite String.eqb_refl, (get_None_keys _ _ Hfresh). reflexivity.
  - destruct (String.eqb_spec n k) as [->|]; [congruence|reflexivity].
Qed.

(** With one spelling only, what is sent is what the object holds. *)
Lemma sentHeader_get name o :
  unambiguous (Js.toLowerCase name) o →
  Node.sentHeader name o = Js.get (Js.toLowerCase name) o.
Proof.
  intros H. unfold Node.sentHeader.
  rewrite sentHeader_fold by (apply toLowerCase_idem || exact H).
  destruct (Js.get _ o); reflexivity.
Qed.

(** A property assigned last wins over any other spelling. *)
Lemma sentHeader_last name k v o :
  Js.toLowerCase k = Js.toLowerCase name →
  Node.sentHeader name (o ++ [(k, v)]) = Some v.
Proof.
  intros E. unfold Node.sentHeader. rewrite fold_left_app. simpl.
  rewrite E, String.eqb_refl. reflexivity.
Qed.

(** Assigning a header leaves what is sent under any other name. *)
Lemma sentHeader_set_other n k v o :
  Js.toLowerCase k ≠ Js.toLowerCase n →
  Node.sentHeader n (Js.set k v o) = Node.sentHeader n o.
Proof.
  intros Hne. unfold Node.sentHeader. generalize (@None string) as sent.
  induction o as [|[k' v'] o IH]; intros sent; simpl.
  - destruct (String.eqb_spec (Js.toLowerCase k) (Js.toLowerCase n)); [contradiction|].
    reflexivity.
  - destruct (String.eqb_spec k k') as [<-|Hk]; simpl.
    + destruct (String.eqb_spec (Js.toLowerCase k) (Js.toLowerCase n)); [contradiction|].
      reflexivity.
    + apply IH.
Qed.

Lemma get_filter_out k o :
  Js.get k (List.filter (fun kv => negb (String.eqb kv.1 k)) o) = None.
Proof.
  induction o as [|[k' v'] o IH]; simpl; [reflexivity|].
  destruct (String.eqb_spec k' k) as [->|Hne]; simpl; [exact IH|].
  destruct (String.eqb_spec k k'); [congruence|exact IH].
Qed.

Lemma get_map_value (f : string → string → string) k o :
  Js.get k (map (fun kv => (kv.1, f kv.1 kv.2)) o) = f k <$> Js.get k o.
Proof.
  induction o as [|[k' v'] o IH]; simpl; [reflexivity|].
  destruct (String.eqb_spec k k') as [->|_]; [reflexivity|exact IH].
Qed.

End Objects.

(** ** The rate limiter *)

Section Limiter.

Import RateLimit.

Implicit Types (store : gmap string Counter) (req : Request) (now : Z).

Lemma rateLimit_store opts now store req :
  (rateLimit opts now store req).2
  = (increment (windowMs opts) now (keyGenerator req) store).2.
Proof.
  unfold rateLimit.
  destruct (increment _ _ _ _) as [c store']. simpl.
  destruct (max opts <? totalHits c)%nat; reflexivity.
Qed.

Lemma admits_hits opts now store req :
  admits opts now store req
  = negb (max opts <? totalHits (increment (windowMs opts) now (keyGenerator req) store).1)%nat.
Proof.
  unfold admits, rateLimit.
  destruct (increment _ _ _ _) as [c store']. simpl.
  destruct (max opts <? totalHits c)%nat; reflexivity.
Qed.

Lemma rateLimit_admitted opts now store req :
  admits opts now store req = true →
  (rateLimit opts now store req).1 = next req.
Proof.
  rewrite admits_hits. unfold rateLimit.
  destruct (increment _ _ _ _) as [c store']. simpl.
  destruct (max opts <? totalHits c)%nat; [discriminate|reflexivity].
Qed.

Lemma rateLimit_denied opts now store req :
  admits opts now store req = false →
  (rateLimit opts now store req).1 = finish (handler opts req).
Proof.
  rewrite admits_hits. unfold rateLimit.
  destruct (increment _ _ _ _) as [c store']. simpl.
  destruct (max opts <? totalHits c)%nat; [reflexivity|discriminate].
Qed.

Lemma increment_other window now key store client :
  key ≠ client → (increment window now key store).2 !! client = store !! client.
Proof. intros Hne. unfold increment. simpl. apply lookup_insert_ne, Hne. Qed.

Lemma increment_open window now key store k reset :
  store !! key = Some {| totalHits := k; resetTime := reset |} →
  (now < reset)%Z →
  increment window now key store
  = ({| totalHits := S k; resetTime := reset |},
     <[key := {| totalHits := S k; resetTime := reset |}]> store).
Proof.
  intros Hs Hlt. unfold increment. rewrite Hs. simpl.
  apply Z.ltb_lt in Hlt. rewrite Hlt. reflexivity.
Qed.

Lemma increment_fresh window now key store :
  (∀ c, store !! key = Some c → (resetTime c ≤ now)%Z) →
  increment window now key store
  = ({| totalHits := 1; resetTime := now + window |},
     <[key := {| totalHits := 1; resetTime := now + window |}]> store).
Proof.
  intros Hs. unfold increment. destruct (store !! key) as [c|]; [|reflexivity].
  specialize (Hs c eq_refl). apply Z.ltb_ge in Hs. rewrite Hs. reflexivity.
Qed.

Lemma decisionsFor_cons client key (d : bool) ds :
  decisionsFor client ((key, d) :: ds)
  = if decide (key = client) then d :: decisionsFor client ds
    else decisionsFor client ds.
Proof.
  unfold decisionsFor. destruct (decide (key = client)) as [E|E].
  - rewrite filter_cons_True by exact E. reflexivity.
  - rewrite filter_cons_False by exact E. reflexivity.
Qed.

(** While the client's window is open, each of its requests counts one
    more hit. *)
Lemma decisions_open opts client arrivals :
  ∀ store k reset,
  store !! client = Some {| totalHits := k; resetTime := reset |} →
  Forall (fun a => ip a.2 = client → (a.1 < reset)%Z) arrivals →
  ∀ i d,
  decisionsFor client (decisions opts store arrivals) !! i = Some d →
  d = bool_decide (k + i < max opts).
Proof.
  induction arrivals as [|[now req] arrivals IH]; intros store k reset Hs Hin i d.
  - unfold decisionsFor. simpl. rewrite lookup_nil. discriminate.
  - apply Forall_cons in Hin as [Hnow Hin]. simpl in Hnow.
    simpl decisions. rewrite decisionsFor_cons, rateLimit_store.
    unfold keyGenerator.
    destruct (decide (ip req = client)) as [E|E].
    + subst client. specialize (Hnow eq_refl).
      rewrite admits_hits. unfold keyGenerator.
      rewrite (increment_open _ _ _ _ _ _ Hs Hnow). simpl.
      destruct i as [|i]; simpl.
      * intros [= <-]. rewrite Nat.add_0_r.
        destruct (Nat.ltb_spec (max opts) (S k)); simpl; symmetry;
          [apply bool_decide_eq_false|apply bool_decide_eq_true]; lia.
      * intros Hd.
        replace (k + S i) with (S k + i) by lia.
        eapply (IH _ (S k) reset); [apply lookup_insert_eq|exact Hin|exact Hd].
    + apply (IH _ k reset); [|exact Hin].
      rewrite increment_other by exact E. exact Hs.
Qed.

(** From a state in which the client has no open window. *)
Lemma decisions_fresh opts client t0 arrivals :
  ∀ store,
  (∀ c, store !! client = Some c → (resetTime c ≤ t0)%Z) →
  Forall (fun a => ip a.2 = client → (t0 ≤ a.1 < t0 + windowMs opts)%Z) arrivals →
  ∀ i d,
  decisionsFor client (decisions opts store arrivals) !! i = Some d →
  d = bool_decide (i < max opts).
Proof.
  induction arrivals as [|[now req] arrivals IH]; intros store Hs Hin i d.
  - unfold decisionsFor. simpl. rewrite lookup_nil. discriminate.
  - apply Forall_cons in Hin as [Hnow Hin]. simpl in Hnow.
    simpl decisions. rewrite decisionsFor_cons, rateLimit_store.
    unfold keyGenerator.
    destruct (decide (ip req = client)) as [E|E].
    + subst client. specialize (Hnow eq_refl).
      rewrite admits_hits. unfold keyGenerator.
      rewrite increment_fresh by (intros c Hc; specialize (Hs c Hc); lia).
      simpl. destruct i as [|i]; simpl.
      * intros [= <-].
        destruct (Nat.ltb_spec (max opts) 1); simpl; symmetry;
          [apply bool_decide_eq_false|apply bool_decide_eq_true]; lia.
      * intros Hd.
        replace (S i) with (1 + i) by lia.
        eapply (decisions_open opts (ip req) arrivals _ 1 (now + windowMs opts));
          [apply lookup_insert_eq| |exact Hd].
        eapply Forall_impl; [exact Hin|]. simpl. intros a Ha Hip.
        specialize (Ha Hip). lia.
    + apply IH; [|exact Hin].
      intros c. rewrite increment_other by exact E. apply Hs.
Qed.

End Limiter.

(** ** Routing *)

Section Routing.

Lemma prefix_comparable (a b s : string) :
  String.prefix a s = true → String.prefix b s = true →
  String.prefix a b = true ∨ String.prefix b a = true.
Proof.
  revert b s. induction a as [|x a IH]; intros b s Ha Hb.
  - left. destruct b; reflexivity.
  - destruct b as [|y b]; [right; reflexivity|].
    destruct s as [|z s]; [discriminate|].
    simpl in Ha, Hb |- *.
    destruct (ascii_dec x z) as [->|]; [|discriminate].
    destruct (ascii_dec y z) as [->|]; [|discriminate].
    destruct (ascii_dec z z); [|congruence].
    eapply IH; eassumption.
Qed.

Lemma mountMatches_prefix (mount url : string) :
  mountMatches mount url = true →
  String.prefix (Js.toLowerCase mount) (Js.toLowerCase url) = true.
Proof. unfold mountMatches. intros H. apply andb_prop in H as [H _]. exact H. Qed.

(** Two mount paths neither of which starts with the other never match
    the same request. *)
Lemma mountMatches_disjoint (m1 m2 url : string) :
  String.prefix (Js.toLowerCase m1) (Js.toLowerCase m2) = false →
  String.prefix (Js.toLowerCase m2) (Js.toLowerCase m1) = false →
  mountMatches m1 url = true → mountMatches m2 url = false.
Proof.
  intros H12 H21 H1. destruct (mountMatches m2 url) eqn:H2; [|reflexivity].
  apply mountMatches_prefix in H1, H2.
  destruct (prefix_comparable _ _ _ H1 H2); congruence.
Qed.

Lemma routeOf_mount (req : Request) (m : Mount) :
  m ∈ mounts → mountMatches (path m) (pathname req) = true → routeOf req = Some m.
Proof.
  intros Hin Hm. unfold routeOf, mounts in *.
  repeat (apply elem_of_cons in Hin as [->|Hin]);
    [..|apply elem_of_nil in Hin; contradiction];
    simpl in Hm |- *;
    repeat
      match goal with
      | Hm : mountMatches ?q _ = true
        |- context [mountMatches ?p (pathname req)] =>
          first
            [ rewrite Hm
            | rewrite (mountMatches_disjoint q p (pathname req) eq_refl eq_refl Hm) ]
      end;
    reflexivity.
Qed.

Lemma routeOf_mounts (req : Request) (m : Mount) :
  routeOf req = Some m →
  m ∈ mounts ∧ mountMatches (path m) (pathname req) = true.
Proof.
  unfold routeOf. intros H. apply find_some in H as [Hin Hm].
  split; [apply list_elem_of_In, Hin|exact Hm].
Qed.

(** What all five mounts share: the spread [...proxyOptions] and the
    shape of the response hook. *)
Lemma mounts_shared (m : Mount) :
  m ∈ mounts →
  HttpProxy.proxyReqPathResolver (options m) = proxyReqPathResolver
  ∧ HttpProxy.proxyErrorHandler (options m) = proxyErrorHandler
  ∧ ∃ service, HttpProxy.userResDecorator (options m) = logResponse service.
Proof.
  intros Hin. unfold mounts in Hin.
  repeat (apply elem_of_cons in Hin as [->|Hin]);
    [..|apply elem_of_nil in Hin; contradiction];
    simpl; repeat split; eexists; reflexivity.
Qed.

Lemma guarded_mount (p : string) :
  p ∈ guardedPaths → ∃ m, m ∈ mounts ∧ path m = p ∧ guarded m = true.
Proof.
  unfold guardedPaths, mounts. intros H.
  repeat (apply elem_of_cons in H as [->|H]);
    [..|apply elem_of_nil in H; contradiction];
    eexists (Build_Mount _ _ _ _);
    (split; [|split; reflexivity]);
    repeat first [apply list_elem_of_here | apply list_elem_of_further].
Qed.

End Routing.

(** ** One request through the pipeline *)

Section Pipeline.

Variable W : World.

Implicit Types (store : gmap string RateLimit.Counter) (req : Request) (now : Z).

Lemma gateway_store now store req :
  (gateway W now store req).2 = (RateLimit.rateLimit rateLimitOptions now store req).2.
Proof. unfold gateway. destruct (RateLimit.rateLimit _ _ _ _). reflexivity. Qed.

Lemma gateway_denied now store req :
  RateLimit.admits rateLimitOptions now store req = false →
  (gateway W now store req).1 = RateLimit.handler rateLimitOptions req.
Proof.
  intros H. apply rateLimit_denied in H. unfold gateway.
  destruct (RateLimit.rateLimit _ _ _ _) as [m store']. simpl in *. subst m.
  reflexivity.
Qed.

Lemma andThen_next {A B} (a : A) (k : A → Mw B) : andThen (next a) k = k a.
Proof. unfold andThen, next. destruct (k a). reflexivity. Qed.

Lemma dispatch_ends req : (dispatch W req).2 = Ended.
Proof.
  unfold dispatch. destruct (routeOf req) as [m|]; [|reflexivity].
  unfold throughMount.
  destruct (if guarded m then validateToken W req else next req) as [t [r| |err]] eqn:E;
    try reflexivity.
  destruct (guarded m); [|discriminate].
  unfold validateToken in E.
  destruct (bearerToken req) as [token|]; [|discriminate].
  destruct (verify W token); discriminate.
Qed.

Lemma logRequest_printed req shown :
  Js.toString (bodyOf req) = Js.Return shown →
  logRequest req
  = ([ Log Info ("Received " +:+ method req +:+ " request to " +:+ originalUrl req);
       Log Info ("Request body, " +:+ shown) ],
     Next req).
Proof. intros H. unfold logRequest. rewrite H. reflexivity. Qed.

Lemma logRequest_unprinted req err :
  Js.toString (bodyOf req) = Js.Throw err →
  logRequest req
  = ([ Log Info ("Received " +:+ method req +:+ " request to " +:+ originalUrl req) ],
     Raised err).
Proof. intros H. unfold logRequest. rewrite H. reflexivity. Qed.

Lemma gateway_admitted now store req :
  RateLimit.admits rateLimitOptions now store req = true →
  printable req →
  (gateway W now store req).1 = (logRequest req).1 ++ (dispatch W req).1.
Proof.
  intros H [shown Hp]. apply rateLimit_admitted in H. unfold gateway.
  destruct (RateLimit.rateLimit _ _ _ _) as [m store']. cbn [fst] in *. subst m.
  rewrite andThen_next, (logRequest_printed _ _ Hp).
  pose proof (dispatch_ends req) as He.
  unfold andThen, next. cbn [fst app].
  destruct (dispatch W req) as [t r]. cbn [snd] in He. subst r. reflexivity.
Qed.

Lemma gateway_unprinted now store req err :
  RateLimit.admits rateLimitOptions now store req = true →
  Js.toString (bodyOf req) = Js.Throw err →
  (gateway W now store req).1 = (logRequest req).1 ++ errorHandler err.
Proof.
  intros H Hp. apply rateLimit_admitted in H. unfold gateway.
  destruct (RateLimit.rateLimit _ _ _ _) as [m store']. cbn [fst] in *. subst m.
  rewrite andThen_next, (logRequest_unprinted _ _ Hp). reflexivity.
Qed.

Lemma validateToken_ok req subject :
  subjectOf W req = Some subject →
  validateToken W req = next (withUser {| userId := subject |} req).
Proof.
  unfold subjectOf, validateToken.
  destruct (bearerToken req) as [token|]; [|discriminate].
  destruct (verify W token); [|discriminate..].
  intros [= ->]. reflexivity.
Qed.

Lemma validateToken_refuses req :
  subjectOf W req = None →
  ∃ why, validateToken W req = finish [SendUnauthorized why].
Proof.
  unfold subjectOf, validateToken.
  destruct (bearerToken req) as [token|]; [|eexists; reflexivity].
  destruct (verify W token); [discriminate|eexists; reflexivity..].
Qed.

Lemma proxy_trace m req :
  m ∈ mounts →
  HttpProxy.proxy W (host m) (options m) (path m) req
  = match HttpProxy.proxyReqOptDecorator (options m)
            (HttpProxy.buildProxyReq (options m) (path m) req) req with
    | Js.Throw err => proxyErrorHandler err
    | Js.Return decorated =>
        Outbound (host m) (sentFor W req decorated)
        :: HttpProxy.settle W (options m) req
             (backend W (host m) (sentFor W req decorated))
    end.
Proof.
  intros Hin. destruct (mounts_shared m Hin) as (Hp & He & _).
  unfold HttpProxy.proxy, sentFor. rewrite Hp, He. reflexivity.
Qed.

(** Every request takes one of the six ways. *)
Lemma gateway_journey now store req :
  Journey W now store req (gateway W now store req).1.
Proof.
  destruct (RateLimit.admits rateLimitOptions now store req) eqn:Ha.
  2:{ rewrite gateway_denied by exact Ha. apply Denied, Ha. }
  destruct (Js.toString (bodyOf req)) as [shown|err] eqn:Hp.
  2:{ rewrite (gateway_unprinted _ _ _ _ Ha Hp). apply Unprinted; assumption. }
  assert (Hq : printable req) by (exists shown; exact Hp).
  rewrite gateway_admitted by assumption. unfold dispatch.
  destruct (routeOf req) as [m|] eqn:Hr.
  2:{ apply Unrouted; assumption. }
  destruct (routeOf_mounts _ _ Hr) as [Hin _].
  unfold throughMount.
  destruct (guarded m) eqn:Hg.
  - destruct (subjectOf W req) as [subject|] eqn:Hs.
    + rewrite (validateToken_ok _ _ Hs).
      unfold andThen, next, finish. cbn [fst app].
      rewrite proxy_trace by exact Hin.
      destruct (HttpProxy.proxyReqOptDecorator _ _ _) as [decorated|err] eqn:Hd.
      * eapply Sent; eauto. right. eauto.
      * eapply Threw; eauto. right. eauto.
    + destruct (validateToken_refuses _ Hs) as [why ->].
      unfold andThen, finish. cbn [fst].
      eapply Refused; eauto.
  - unfold andThen, next, finish. cbn [fst app].
    rewrite proxy_trace by exact Hin.
    destruct (HttpProxy.proxyReqOptDecorator _ _ _) as [decorated|err] eqn:Hd.
    + eapply Sent; eauto. left. eauto.
    + eapply Threw; eauto. left. eauto.
Qed.

Lemma entered_same m req req' :
  entered W m req req' →
  originalUrl req' = originalUrl req ∧ headers req' = headers req
  ∧ entity req' = entity req ∧ body req' = body req ∧ method req' = method req
  ∧ pathname req' = pathname req.
Proof. intros [[_ ->]|[_ (s & _ & ->)]]; repeat split; reflexivity. Qed.

End Pipeline.

(** ** Reading traces *)

Section Traces.

Variable W : World.

Implicit Types (store : gmap string RateLimit.Counter) (req : Request) (now : Z)
  (t : list Event).

Lemma outbound_app t t' : outbound (t ++ t') = outbound t ++ outbound t'.
Proof. apply List.filter_app. Qed.

Lemma responses_app t t' : responses (t ++ t') = responses t ++ responses t'.
Proof. apply List.filter_app. Qed.

Lemma outbound_elem h o t : Outbound h o ∈ t → Outbound h o ∈ outbound t.
Proof.
  intros H. apply list_elem_of_In. apply List.filter_In.
  split; [apply list_elem_of_In, H|reflexivity].
Qed.

Lemma outbound_inv e t : e ∈ outbound t → e ∈ t.
Proof.
  intros H. apply list_elem_of_In, List.filter_In in H as [H _].
  apply list_elem_of_In, H.
Qed.

Lemma settle_failed m req err :
  m ∈ mounts →
  HttpProxy.settle W (options m) req (Failed err) = proxyErrorHandler err.
Proof.
  intros Hin. destruct (mounts_shared m Hin) as (_ & He & _).
  cbn [HttpProxy.settle]. rewrite He. reflexivity.
Qed.

(** The three things that become of a reply. *)
Lemma settle_replied m req proxyRes data :
  m ∈ mounts →
  (statusCode proxyRes = 304
   ∧ HttpProxy.settle W (options m) req (Replied proxyRes data)
     = [Relay (statusCode proxyRes) (HttpProxy.copyProxyResHeaders proxyRes) data])
  ∨ (statusCode proxyRes ≠ 304
     ∧ ∃ err,
         HttpProxy.zipped proxyRes data = true
         ∧ gunzip W data = Js.Throw err
         ∧ HttpProxy.settle W (options m) req (Replied proxyRes data)
           = proxyErrorHandler err)
  ∨ (statusCode proxyRes ≠ 304
     ∧ ∃ plain msg,
         (if HttpProxy.zipped proxyRes data then gunzip W data else Js.Return data)
         = Js.Return plain
         ∧ HttpProxy.settle W (options m) req (Replied proxyRes data)
           = [ Log Info msg;
               Relay (statusCode proxyRes)
                 (Js.set "content-length" (pretty (length plain))
                    (HttpProxy.copyProxyResHeaders proxyRes))
                 (if HttpProxy.zipped proxyRes plain then gzip W plain else plain) ]).
Proof.
  intros Hin. destruct (mounts_shared m Hin) as (_ & He & service & E).
  unfold HttpProxy.settle. rewrite E, He.
  destruct (Nat.eqb_spec (statusCode proxyRes) 304) as [Hs|Hs]; [left; auto|].
  right.
  destruct (HttpProxy.zipped proxyRes data) eqn:Hz.
  - destruct (gunzip W data) as [plain|err] eqn:Hg.
    + right. split; [exact Hs|]. eexists plain, _. split; reflexivity.
    + left. split; [exact Hs|]. exists err. auto.
  - right. split; [exact Hs|]. eexists data, _. split; reflexivity.
Qed.

Lemma settle_outbound m req result :
  m ∈ mounts → outbound (HttpProxy.settle W (options m) req result) = [].
Proof.
  intros Hin. destruct result as [proxyRes data|err|].
  - destruct (settle_replied m req proxyRes data Hin)
      as [[_ ->]|[(_ & err & _ & _ & ->)|(_ & plain & msg & _ & ->)]]; reflexivity.
  - rewrite settle_failed by exact Hin. reflexivity.
  - reflexivity.
Qed.

(** One response for an outcome, none without. *)
Lemma settle_responses m req result :
  m ∈ mounts →
  length (responses (HttpProxy.settle W (options m) req result))
  = match result with Stalled => 0 | _ => 1 end.
Proof.
  intros Hin. destruct result as [proxyRes data|err|].
  - destruct (settle_replied m req proxyRes data Hin)
      as [[_ ->]|[(_ & err & _ & _ & ->)|(_ & plain & msg & _ & ->)]]; reflexivity.
  - rewrite settle_failed by exact Hin. reflexivity.
  - reflexivity.
Qed.

Lemma logRequest_quiet req :
  outbound (logRequest req).1 = [] ∧ responses (logRequest req).1 = [].
Proof. unfold logRequest. destruct (Js.toString (bodyOf req)); split; reflexivity. Qed.

Lemma logged_outbound req t : outbound ((logRequest req).1 ++ t) = outbound t.
Proof. rewrite outbound_app, (proj1 (logRequest_quiet req)). reflexivity. Qed.

Lemma logged_responses req t : responses ((logRequest req).1 ++ t) = responses t.
Proof. rewrite responses_app, (proj2 (logRequest_quiet req)). reflexivity. Qed.

Lemma sent_outbound m req o result :
  m ∈ mounts →
  outbound (Outbound (host m) o :: HttpProxy.settle W (options m) req result)
  = [Outbound (host m) o].
Proof.
  intros Hin. change (outbound (?e :: ?t)) with (List.filter isOutbound ([e] ++ t)).
  rewrite List.filter_app. change (List.filter isOutbound ?t) with (outbound t).
  rewrite settle_outbound by exact Hin. reflexivity.
Qed.

(** A trace with a call to a backend in it is the trace of a request
    that was sent, and the call is the only one. *)
Lemma journey_outbound now store req t h o :
  Journey W now store req t → Outbound h o ∈ t →
  ∃ m req' decorated,
    m ∈ mounts ∧ routeOf req = Some m ∧ entered W m req req'
    ∧ HttpProxy.proxyReqOptDecorator (options m)
        (HttpProxy.buildProxyReq (options m) (path m) req') req' = Js.Return decorated
    ∧ h = host m
    ∧ o = sentFor W req' decorated
    ∧ t = (logRequest req).1
          ++ Outbound h o :: HttpProxy.settle W (options m) req' (backend W h o)
    ∧ outbound t = [Outbound h o].
Proof.
  intros J Hin. apply outbound_elem in Hin.
  destruct (logRequest_quiet req) as [Hq _].
  destruct J as [Ha|err Ha Hp|Ha Hp Hr|m why Ha Hp Hr Hg Hs
                |m req' err Ha Hp Hr He Hd|m req' d Ha Hp Hr He Hd];
    try (rewrite outbound_app, Hq in Hin; simpl in Hin);
    try (apply elem_of_nil in Hin; contradiction).
  destruct (routeOf_mounts _ _ Hr) as [Hm _].
  change (List.filter isOutbound ?t) with (outbound t) in Hin.
  rewrite settle_outbound in Hin by exact Hm.
  apply list_elem_of_singleton in Hin. injection Hin as -> ->.
  exists m, req', d. repeat split; try assumption; try reflexivity.
  rewrite outbound_app, Hq. simpl.
  change (List.filter isOutbound ?t) with (outbound t).
  rewrite settle_outbound by exact Hm. reflexivity.
Qed.

Lemma gateway_outbound now store req h o :
  Outbound h o ∈ (gateway W now store req).1 →
  ∃ m req' decorated,
    m ∈ mounts ∧ routeOf req = Some m ∧ entered W m req req'
    ∧ HttpProxy.proxyReqOptDecorator (options m)
        (HttpProxy.buildProxyReq (options m) (path m) req') req' = Js.Return decorated
    ∧ h = host m
    ∧ o = sentFor W req' decorated
    ∧ (gateway W now store req).1
      = (logRequest req).1
        ++ Outbound h o :: HttpProxy.settle W (options m) req' (backend W h o)
    ∧ outbound (gateway W now store req).1 = [Outbound h o].
Proof. intros H. eapply journey_outbound; [apply gateway_journey|exact H]. Qed.

(** The trace of an admitted request at a given mount. *)
Lemma mount_trace now store req m req' :
  RateLimit.admits rateLimitOptions now store req = true →
  printable req →
  m ∈ mounts → mountMatches (path m) (pathname req) = true →
  entered W m req req' →
  (gateway W now store req).1
  = (logRequest req).1
    ++ match HttpProxy.proxyReqOptDecorator (options m)
               (HttpProxy.buildProxyReq (options m) (path m) req') req' with
       | Js.Throw err => proxyErrorHandler err
       | Js.Return decorated =>
           Outbound (host m) (sentFor W req' decorated)
           :: HttpProxy.settle W (options m) req'
                (backend W (host m) (sentFor W req' decorated))
       end.
Proof.
  intros Ha Hq Hin Hm He. rewrite gateway_admitted by assumption. f_equal.
  unfold dispatch. rewrite (routeOf_mount _ _ Hin Hm). unfold throughMount.
  destruct He as [[Hg ->]|[Hg (s & Hs & ->)]]; rewrite Hg.
  - unfold andThen, next, finish. cbn [fst app]. apply proxy_trace, Hin.
  - rewrite (validateToken_ok _ _ _ Hs).
    unfold andThen, next, finish. cbn [fst app]. apply proxy_trace, Hin.
Qed.

(** The trace of an admitted request a guarded mount refuses. *)
Lemma refused_trace now store req m :
  RateLimit.admits rateLimitOptions now store req = true →
  printable req →
  m ∈ mounts → mountMatches (path m) (pathname req) = true →
  guarded m = true → subjectOf W req = None →
  ∃ why, (gateway W now store req).1 = (logRequest req).1 ++ [SendUnauthorized why].
Proof.
  intros Ha Hq Hin Hm Hg Hs. rewrite gateway_admitted by assumption.
  unfold dispatch. rewrite (routeOf_mount _ _ Hin Hm). unfold throughMount.
  rewrite Hg. destruct (validateToken_refuses W _ Hs) as [why ->].
  exists why. reflexivity.
Qed.

End Traces.

(** ** The decorators *)

Section Decorators.

Implicit Types (req : Request) (subject : string).

Lemma get_carried k req :
  negb (existsb (String.eqb k) HttpProxy.skipHdrs) = true →
  Js.get k (HttpProxy.carriedHeaders req) = Js.get k (headers req).
Proof.
  intros Hk. unfold HttpProxy.carriedHeaders.
  rewrite get_set_ne.
  - apply (get_filter (fun k => negb (existsb (String.eqb k) HttpProxy.skipHdrs))), Hk.
  - intros <-. discriminate Hk.
Qed.

Lemma carried_unambiguous n req :
  Node.incoming (headers req) = true → Js.toLowerCase n = n →
  unambiguous n (HttpProxy.carriedHeaders req).
Proof.
  intros Hi Hn. unfold HttpProxy.carriedHeaders.
  apply unambiguous_set.
  - apply unambiguous_filter. rewrite <- Hn. apply incoming_unambiguous, Hi.
  - intros <-. reflexivity.
Qed.

Lemma carried_lower k req :
  Node.incoming (headers req) = true →
  k ∈ Js.keys (HttpProxy.carriedHeaders req) → Js.toLowerCase k = k.
Proof.
  intros Hi Hin. unfold HttpProxy.carriedHeaders in Hin.
  apply keys_set in Hin as [->|Hin]; [reflexivity|].
  apply keys_filter in Hin. eapply incoming_lower; eauto.
Qed.

(** The three JSON mounts behind [validateToken] decorate alike. *)
Lemma json_decorator m req subject :
  m ∈ mounts → guarded m = true → path m ≠ "/v1/media" →
  HttpProxy.proxyReqOptDecorator (options m)
    (HttpProxy.buildProxyReq (options m) (path m) (withUser {| userId := subject |} req))
    (withUser {| userId := subject |} req)
  = Js.Return
      (assignHeader "x-user-id" subject
         (assignHeader "Content-Type" "application/json"
            (HttpProxy.buildProxyReq (options m) (path m)
               (withUser {| userId := subject |} req)))).
Proof.
  intros Hin Hg Hp. unfold mounts in Hin.
  repeat (apply elem_of_cons in Hin as [->|Hin]);
    [..|apply elem_of_nil in Hin; contradiction];
    first [discriminate Hg | contradiction Hp; reflexivity | reflexivity].
Qed.

Lemma media_decorator req subject :
  HttpProxy.proxyReqOptDecorator mediaOptions
    (HttpProxy.buildProxyReq mediaOptions "/v1/media" (withUser {| userId := subject |} req))
    (withUser {| userId := subject |} req)
  = match Js.get "content-type" (headers req) with
    | None => Js.Throw (Js.readOfUndefined "startsWith")
    | Some contentType =>
        let decorated :=
          assignHeader "x-user-id" subject
            (HttpProxy.buildProxyReq mediaOptions "/v1/media"
               (withUser {| userId := subject |} req)) in
        Js.Return
          (if Js.startsWith contentType "multipart/form-data" then decorated
           else assignHeader "Content-Type" "application/json" decorated)
    end.
Proof.
  cbn [HttpProxy.proxyReqOptDecorator mediaOptions userIdOf user withUser userId headers].
  destruct (Js.get "content-type" (headers req)) as [contentType|]; [|reflexivity].
  destruct (Js.startsWith contentType "multipart/form-data"); reflexivity.
Qed.

Lemma user_id_set subject (o : Js.Obj) :
  Js.get "x-user-id" (Js.set "x-user-id" subject o) = Some subject
  ∧ Js.get "x-user-id" (Js.set "Content-Type" "application/json" (Js.set "x-user-id" subject o))
    = Some subject.
Proof.
  split; [apply get_set_eq|].
  rewrite get_set_ne by discriminate. apply get_set_eq.
Qed.

Lemma user_id_sent subject req :
  Node.incoming (headers req) = true →
  Node.sentHeader "x-user-id"
    (Js.set "x-user-id" subject
       (Js.set "Content-Type" "application/json" (HttpProxy.carriedHeaders req)))
  = Some subject
  ∧ Node.sentHeader "x-user-id"
      (Js.set "x-user-id" subject (HttpProxy.carriedHeaders req))
    = Some subject
  ∧ Node.sentHeader "x-user-id"
      (Js.set "Content-Type" "application/json"
         (Js.set "x-user-id" subject (HttpProxy.carriedHeaders req)))
    = Some subject.
Proof.
  intros Hi.
  assert (U : unambiguous "x-user-id" (HttpProxy.carriedHeaders req))
    by (apply carried_unambiguous; [exact Hi|reflexivity]).
  assert (C : Js.toLowerCase "Content-Type" = "x-user-id" → "Content-Type" = "x-user-id")
    by (intros E; discriminate E).
  repeat split; rewrite sentHeader_get.
  - change (Js.toLowerCase "x-user-id") with "x-user-id". apply get_set_eq.
  - do 2 (apply unambiguous_set; [|auto]). exact U.
  - change (Js.toLowerCase "x-user-id") with "x-user-id". apply get_set_eq.
  - apply unambiguous_set; [exact U|auto].
  - change (Js.toLowerCase "x-user-id") with "x-user-id". apply user_id_set.
  - do 2 (apply unambiguous_set; [|auto]). exact U.
Qed.

(** [express.json()] leaves a multipart body in the stream. *)
Lemma multipart_not_read req contentType :
  Js.get "content-type" (headers req) = Some contentType →
  Js.startsWith contentType "multipart/form-data" = true →
  readByJson req = false.
Proof.
  intros Hc Hs. unfold readByJson. rewrite Hc.
  apply prefix_inv in Hs as [rest ->].
  destruct (String.eqb_spec (mediaType ("multipart/form-data" +:+ rest)) "application/json")
    as [E|_]; [|reflexivity].
  exfalso. revert E. unfold mediaType.
  change ("multipart/form-data" +:+ rest)
    with (String "m" ("ultipart/form-data" +:+ rest)).
  cbn [beforeParameters trimStart Ascii.eqb Bool.eqb isSpace orb].
  cbn [trimEnd].
  destruct (trimEnd _); intros E; discriminate E.
Qed.

Lemma multipart_unread req contentType :
  Js.get "content-type" (headers req) = Some contentType →
  Js.startsWith contentType "multipart/form-data" = true →
  unread req = entity req.
Proof.
  intros Hc Hs. unfold unread.
  rewrite (multipart_not_read req contentType Hc Hs). reflexivity.
Qed.

(** What the media decorator leaves of the content type. *)
Lemma media_content_type_sent subject contentType req :
  Node.incoming (headers req) = true →
  Js.get "content-type" (headers req) = Some contentType →
  let decorated := Js.set "x-user-id" subject (HttpProxy.carriedHeaders req) in
  Node.sentHeader "content-type" decorated = Some contentType
  ∧ Js.get "Content-Type" decorated = None
  ∧ Node.sentHeader "content-type" (Js.set "Content-Type" "application/json" decorated)
    = Some "application/json".
Proof.
  intros Hi Hc decorated.
  assert (L : ∀ k, k ∈ Js.keys decorated → Js.toLowerCase k = k).
  { intros k Hin. apply keys_set in Hin as [->|Hin]; [reflexivity|].
    eapply carried_lower; eauto. }
  assert (F : "Content-Type" ∉ Js.keys decorated).
  { intros Hin. apply L in Hin. discriminate Hin. }
  split; [|split].
  - rewrite sentHeader_get.
    + change (Js.toLowerCase "content-type") with "content-type".
      unfold decorated. rewrite get_set_ne by discriminate.
      rewrite get_carried by reflexivity. exact Hc.
    + apply unambiguous_set; [|intros E; discriminate E].
      apply carried_unambiguous; [exact Hi|reflexivity].
  - apply get_None_keys, F.
  - rewrite set_fresh by exact F. apply sentHeader_last. reflexivity.
Qed.

Lemma media_mount m :
  m ∈ mounts → path m = "/v1/media" →
  m = {| path := "/v1/media"; guarded := true;
         host := MEDIA_SERVICE_URL; options := mediaOptions |}.
Proof.
  intros Hin Hp. unfold mounts in Hin.
  repeat (apply elem_of_cons in Hin as [->|Hin]);
    [..|apply elem_of_nil in Hin; contradiction];
    first [discriminate Hp | reflexivity].
Qed.

Lemma media_mounted :
  {| path := "/v1/media"; guarded := true;
     host := MEDIA_SERVICE_URL; options := mediaOptions |} ∈ mounts.
Proof. unfold mounts. do 2 apply list_elem_of_further. apply list_elem_of_here. Qed.

Lemma auth_mounted :
  {| path := "/v1/auth"; guarded := false;
     host := IDENTITY_SERVICE_URL; options := identityOptions |} ∈ mounts.
Proof. unfold mounts. apply list_elem_of_here. Qed.

(** What a mount behind [validateToken] sends carries the identity. *)
Lemma guarded_decorated m req subject decorated :
  m ∈ mounts → guarded m = true →
  HttpProxy.proxyReqOptDecorator (options m)
    (HttpProxy.buildProxyReq (options m) (path m) (withUser {| userId := subject |} req))
    (withUser {| userId := subject |} req)
  = Js.Return decorated →
  Js.get "x-user-id" (reqHeaders decorated) = Some subject
  ∧ (Node.incoming (headers req) = true →
     Node.sentHeader "x-user-id" (reqHeaders decorated) = Some subject).
Proof.
  intros Hin Hg Hd.
  destruct (decide (path m = "/v1/media")) as [Hp|Hp].
  - rewrite (media_mount m Hin Hp) in Hd. cbn [options path] in Hd.
    rewrite media_decorator in Hd.
    destruct (Js.get "content-type" (headers req)) as [contentType|]; [|discriminate Hd].
    injection Hd as <-.
    destruct (Js.startsWith contentType "multipart/form-data");
      (split; [apply user_id_set|intros Hi; apply (user_id_sent subject req Hi)]).
  - rewrite (json_decorator m req subject Hin Hg Hp) in Hd. injection Hd as <-.
    split; [apply get_set_eq|]. intros Hi. apply (user_id_sent subject req Hi).
Qed.

(** It sends, unless it is the media mount and the content type is
    missing. *)
Lemma guarded_returns m req subject :
  m ∈ mounts → guarded m = true →
  (path m = "/v1/media" → is_Some (Js.get "content-type" (headers req))) →
  ∃ decorated,
    HttpProxy.proxyReqOptDecorator (options m)
      (HttpProxy.buildProxyReq (options m) (path m) (withUser {| userId := subject |} req))
      (withUser {| userId := subject |} req)
    = Js.Return decorated.
Proof.
  intros Hin Hg Hc.
  destruct (decide (path m = "/v1/media")) as [Hp|Hp].
  - destruct (Hc Hp) as [contentType E].
    rewrite (media_mount m Hin Hp). cbn [options path].
    rewrite media_decorator, E. eexists. reflexivity.
  - rewrite (json_decorator m req subject Hin Hg Hp). eexists. reflexivity.
Qed.

End Decorators.

(** ** What the proxy adds before sending *)

Section Prepared.

Implicit Types (W : World) (req : Request) (d : ProxyReq).

Lemma sentFor_path W req d : reqPath (sentFor W req d) = proxyReqPathResolver req.
Proof. unfold sentFor, HttpProxy.prepareProxyReq. simpl. destruct (reqBody d); reflexivity. Qed.

Lemma sentFor_method W req d : reqMethod (sentFor W req d) = reqMethod d.
Proof. unfold sentFor, HttpProxy.prepareProxyReq. simpl. destruct (reqBody d); reflexivity. Qed.

Lemma sentFor_body W req d : reqBody (sentFor W req d) = reqBody d.
Proof.
  unfold sentFor, HttpProxy.prepareProxyReq. simpl.
  destruct (reqBody d) eqn:E; simpl; congruence.
Qed.

Lemma sentFor_piped W req d unread :
  reqBody d = Piped unread → reqHeaders (sentFor W req d) = reqHeaders d.
Proof. intros E. unfold sentFor, HttpProxy.prepareProxyReq. simpl. rewrite E. reflexivity. Qed.

Lemma sentFor_get W req d k :
  k ≠ "content-length" → k ≠ "Accept-Charset" →
  Js.get k (reqHeaders (sentFor W req d)) = Js.get k (reqHeaders d).
Proof.
  intros H1 H2. unfold sentFor, HttpProxy.prepareProxyReq. simpl.
  destruct (reqBody d); [|reflexivity].
  cbn [withHeaders reqHeaders withPath].
  rewrite !get_set_ne by congruence. reflexivity.
Qed.

Lemma sentFor_sent W req d n :
  Js.toLowerCase n ≠ "content-length" → Js.toLowerCase n ≠ "accept-charset" →
  Node.sentHeader n (reqHeaders (sentFor W req d)) = Node.sentHeader n (reqHeaders d).
Proof.
  intros H1 H2. unfold sentFor, HttpProxy.prepareProxyReq. simpl.
  destruct (reqBody d); [|reflexivity].
  cbn [withHeaders reqHeaders withPath].
  rewrite !sentHeader_set_other; [reflexivity|..]; intros E.
  - change (Js.toLowerCase "content-length") with "content-length" in E. congruence.
  - change (Js.toLowerCase "Accept-Charset") with "accept-charset" in E. congruence.
Qed.

(** The logger gets through whatever [express.json()] did not read. *)
Lemma unread_printable req : readByJson req = false → printable req.
Proof. intros H. exists "[object Object]". unfold bodyOf. rewrite H. reflexivity. Qed.

Lemma untyped_printable req :
  Js.get "content-type" (headers req) = None → printable req.
Proof. intros H. apply unread_printable. unfold readByJson. rewrite H. reflexivity. Qed.

End Prepared.

(** ** What is relayed of a reply *)

Section Relayed.

Lemma prefix_refl (s : string) : String.prefix s s = true.
Proof. induction s as [|c s IH]; simpl; [reflexivity|]. destruct (ascii_dec c c); congruence. Qed.

Lemma resSet_prefix (field value : string) :
  String.prefix value (resSet field value) = true.
Proof.
  unfold resSet. destruct (_ && _ && _); [apply prefix_append|apply prefix_refl].
Qed.

Lemma resSet_charset (field value : string) :
  hasCharset value = true → resSet field value = value.
Proof.
  intros H. unfold resSet. rewrite H. cbn [negb]. rewrite andb_false_r. reflexivity.
Qed.

Lemma resSet_other (field value : string) :
  Js.toLowerCase field ≠ "content-type" → resSet field value = value.
Proof.
  intros H. unfold resSet.
  destruct (String.eqb_spec (Js.toLowerCase field) "content-type"); [contradiction|].
  reflexivity.
Qed.

Lemma get_copied k (proxyRes : ProxyRes) :
  k ≠ "transfer-encoding" →
  Js.get k (HttpProxy.copyProxyResHeaders proxyRes)
  = resSet k <$> Js.get k (resHeaders proxyRes).
Proof.
  intros Hk. unfold HttpProxy.copyProxyResHeaders.
  rewrite (get_map_value resSet). f_equal.
  apply (get_filter (fun k => negb (String.eqb k "transfer-encoding"))).
  destruct (String.eqb_spec k "transfer-encoding"); [contradiction|reflexivity].
Qed.

Lemma copied_relayed (proxyRes : ProxyRes) :
  headersRelayed proxyRes (HttpProxy.copyProxyResHeaders proxyRes).
Proof.
  split; [|split].
  - intros k v H1 _ H3 E. rewrite get_copied, E by exact H1. simpl.
    rewrite resSet_other by exact H3. reflexivity.
  - intros v E. exists (resSet "content-type" v).
    rewrite get_copied, E by discriminate.
    split; [reflexivity|]. split; [apply resSet_prefix|apply resSet_charset].
  - unfold HttpProxy.copyProxyResHeaders.
    rewrite (get_map_value resSet), get_filter_out. reflexivity.
Qed.

Lemma measured_relayed (proxyRes : ProxyRes) (len : string) :
  headersRelayed proxyRes
    (Js.set "content-length" len (HttpProxy.copyProxyResHeaders proxyRes)).
Proof.
  destruct (copied_relayed proxyRes) as (H1 & H2 & H3).
  split; [|split].
  - intros k v Ht Hl Hc E. rewrite get_set_ne by congruence. apply H1; assumption.
  - intros v E. rewrite get_set_ne by discriminate. apply H2, E.
  - rewrite get_set_ne by discriminate. exact H3.
Qed.

End Relayed.

(** * The claims *)

Section Claims.

Implicit Types (W : World) (store : gmap string RateLimit.Counter)
  (req : Request) (now : Z).

(** C1.  Take a client with no open window at time [t0] and any
    sequence of arrivals, of this client and of others, in which the
    client's requests all arrive within the 15 minutes from [t0].  Then
    the limiter admits the client's first 100 requests and denies the
    next: its decision on the client's request number [i], counting from
    0, is "admit" exactly when [i < 100]. *)
Theorem first_hundred_admitted (client : string) (t0 : Z) store
    (arrivals : list (Z * Request)) :
  (∀ c, store !! client = Some c → (RateLimit.resetTime c ≤ t0)%Z) →
  Forall (fun a => ip a.2 = client → (t0 ≤ a.1 < t0 + 15 * 60 * 1000)%Z) arrivals →
  ∀ i d,
  RateLimit.decisionsFor client (RateLimit.decisions rateLimitOptions store arrivals) !! i
  = Some d →
  d = bool_decide (i < 100).
Proof.
  intros Hs Hin i d Hd.
  exact (decisions_fresh rateLimitOptions client t0 arrivals store Hs Hin i d Hd).
Qed.

Lemma first_hundred_admitted_witness :
  RateLimit.decisionsFor "10.0.0.7"
    (RateLimit.decisions rateLimitOptions ∅ Demo.burst) !! 99 = Some true
  ∧ RateLimit.decisionsFor "10.0.0.7"
      (RateLimit.decisions rateLimitOptions ∅ Demo.burst) !! 100 = Some false
  ∧ true = bool_decide (99 < 100)
  ∧ false = bool_decide (100 < 100).
Proof.
  assert (H1 : ∀ c, (∅ : gmap string RateLimit.Counter) !! "10.0.0.7" = Some c →
               (RateLimit.resetTime c ≤ 0)%Z).
  { intros c Hc. rewrite lookup_empty in Hc. discriminate Hc. }
  assert (H2 : Forall
                 (fun a : Z * Request =>
                    ip a.2 = "10.0.0.7" → (0 ≤ a.1 < 0 + 15 * 60 * 1000)%Z)
                 Demo.burst).
  { apply Forall_cons. split; [intros E; discriminate E|].
    apply Forall_replicate. intros _. simpl. lia. }
  assert (E99 : RateLimit.decisionsFor "10.0.0.7"
                  (RateLimit.decisions rateLimitOptions ∅ Demo.burst) !! 99 = Some true)
    by (vm_compute; reflexivity).
  assert (E100 : RateLimit.decisionsFor "10.0.0.7"
                   (RateLimit.decisions rateLimitOptions ∅ Demo.burst) !! 100 = Some false)
    by (vm_compute; reflexivity).
  split; [exact E99|]. split; [exact E100|]. split.
  - exact (first_hundred_admitted "10.0.0.7" 0 ∅ Demo.burst H1 H2 99 true E99).
  - exact (first_hundred_admitted "10.0.0.7" 0 ∅ Demo.burst H1 H2 100 false E100).
Defined.

(** C2.  When the limiter denies a request the gateway logs a warning,
    answers 429 with the body [{success: false, message: "Too many
    requests"}], and does nothing else: that is the only response and no
    backend is called. *)
Theorem denial_is_429 W now store req :
  RateLimit.admits rateLimitOptions now store req = false →
  (gateway W now store req).1
  = [ Log Warn ("Sensitive endpoint rate limit exceeded for IP: " +:+ ip req);
      SendJson 429 tooManyRequests ]
  ∧ responses (gateway W now store req).1 = [SendJson 429 tooManyRequests]
  ∧ outbound (gateway W now store req).1 = [].
Proof.
  intros H. rewrite (gateway_denied W now store req H).
  repeat split; reflexivity.
Qed.

Lemma denial_is_429_witness :
  RateLimit.admits rateLimitOptions 5 Demo.exhausted Demo.posts42 = false
  ∧ responses (gateway Demo.up 5 Demo.exhausted Demo.posts42).1
    = [SendJson 429 tooManyRequests]
  ∧ outbound (gateway Demo.up 5 Demo.exhausted Demo.posts42).1 = [].
Proof.
  assert (H : RateLimit.admits rateLimitOptions 5 Demo.exhausted Demo.posts42 = false)
    by (vm_compute; reflexivity).
  split; [exact H|].
  exact (proj2 (denial_is_429 Demo.up 5 Demo.exhausted Demo.posts42 H)).
Defined.

(** C9.  The limiter partitions by [req.ip] and by nothing else: two
    requests from the same address get the same decision and leave the
    same counters, on any route, whatever credential, headers, body or
    attached user they carry. *)
Theorem limiter_keyed_by_address W now store req1 req2 :
  ip req1 = ip req2 →
  RateLimit.keyGenerator req1 = ip req1
  ∧ RateLimit.admits rateLimitOptions now store req1
    = RateLimit.admits rateLimitOptions now store req2
  ∧ (gateway W now store req1).2 = (gateway W now store req2).2.
Proof.
  intros E. split; [reflexivity|]. split.
  - rewrite !admits_hits. unfold RateLimit.keyGenerator. rewrite E. reflexivity.
  - rewrite !gateway_store, !rateLimit_store. unfold RateLimit.keyGenerator.
    rewrite E. reflexivity.
Qed.

Lemma limiter_keyed_by_address_witness :
  ip Demo.posts42 = ip Demo.anonymous
  ∧ subjectOf Demo.up Demo.posts42 = Some "u42"
  ∧ subjectOf Demo.up Demo.anonymous = None
  ∧ RateLimit.admits rateLimitOptions 5 Demo.exhausted Demo.posts42
    = RateLimit.admits rateLimitOptions 5 Demo.exhausted Demo.anonymous
  ∧ (gateway Demo.up 5 Demo.exhausted Demo.posts42).2
    = (gateway Demo.up 5 Demo.exhausted Demo.anonymous).2.
Proof.
  split; [reflexivity|]. split; [reflexivity|]. split; [reflexivity|].
  exact (proj2 (limiter_keyed_by_address Demo.up 5 Demo.exhausted
                  Demo.posts42 Demo.anonymous eq_refl)).
Defined.

(** C3.  The rewrite is not the one claimed for every forwarded
    request.  Express matches the mounts without regard to letter case
    and the pattern [/^\/v1/] of [proxyReqPathResolver] matches lower
    case only: [/V1/auth/login?next=1] is admitted, routed to the
    identity service and forwarded with the path
    [/V1/auth/login?next=1], as it came, where the claim has
    [/api/auth/login?next=1]. *)
Theorem uppercase_prefix_not_rewritten :
  originalUrl Probe.shoutedLogin = "/V1/auth/login?next=1"
  ∧ pathname Probe.shoutedLogin = "/V1/auth/login"
  ∧ RateLimit.admits rateLimitOptions 5 ∅ Probe.shoutedLogin = true
  ∧ outbound (gateway Demo.up 5 ∅ Probe.shoutedLogin).1
    = [Outbound IDENTITY_SERVICE_URL Probe.shoutedLoginSent]
  ∧ reqPath Probe.shoutedLoginSent = "/V1/auth/login?next=1"
  ∧ substitutePrefix "/v1" "/api" "/v1/auth/login?next=1" = "/api/auth/login?next=1"
  ∧ String.eqb (reqPath Probe.shoutedLoginSent) "/api/auth/login?next=1" = false.
Proof. repeat split; vm_compute; reflexivity. Qed.

(** C7.  When the call to the backend fails in transport, the gateway
    has made that one call and no other, and answers once: 500 with the
    body [{message: "Internal server error", error: <the error's
    message>}]. *)
Theorem transport_failure W now store req h o err :
  Outbound h o ∈ (gateway W now store req).1 →
  backend W h o = Failed err →
  outbound (gateway W now store req).1 = [Outbound h o]
  ∧ responses (gateway W now store req).1
    = [SendJson 500 (internalServerError (Js.message err))].
Proof.
  intros Hin Hb.
  destruct (gateway_outbound W now store req h o Hin)
    as (m & req' & d & Hm & _ & _ & _ & _ & _ & Et & Eo).
  split; [exact Eo|].
  rewrite Et, Hb, settle_failed by exact Hm.
  rewrite logged_responses. reflexivity.
Qed.

Lemma transport_failure_witness :
  Outbound POST_SERVICE_URL Demo.forwarded ∈ (gateway Demo.down 5 ∅ Demo.posts42).1
  ∧ backend Demo.down POST_SERVICE_URL Demo.forwarded
    = Failed {| Js.message := "connect ECONNREFUSED" |}
  ∧ outbound (gateway Demo.down 5 ∅ Demo.posts42).1
    = [Outbound POST_SERVICE_URL Demo.forwarded]
  ∧ responses (gateway Demo.down 5 ∅ Demo.posts42).1
    = [SendJson 500 (internalServerError "connect ECONNREFUSED")].
Proof.
  assert (H : Outbound POST_SERVICE_URL Demo.forwarded
              ∈ (gateway Demo.down 5 ∅ Demo.posts42).1).
  { vm_compute. do 2 apply list_elem_of_further. apply list_elem_of_here. }
  split; [exact H|]. split; [reflexivity|].
  exact (transport_failure Demo.down 5 ∅ Demo.posts42 _ _ _ H eq_refl).
Defined.

(** C8, as the code has it.  When the backend replies, with whatever
    status, the gateway has made that one call and answers once, with
    the backend's status code.  The response has every header of the
    backend with its value, except that [transfer-encoding] is left
    out, [content-length] is set anew and a [content-type] may have
    gained a charset parameter.  The data go to [res.send] as they
    came when they are not gzip-encoded or the status is 304;
    gzip-encoded data are unzipped for the hook and zipped again, and
    when they cannot be unzipped the answer is the 500 of
    [proxyErrorHandler].  The response hook of every mount only logs
    and hands the data back. *)
Theorem reply_relayed W now store req h o proxyRes data :
  Outbound h o ∈ (gateway W now store req).1 →
  backend W h o = Replied proxyRes data →
  outbound (gateway W now store req).1 = [Outbound h o]
  ∧ (HttpProxy.zipped proxyRes data = false ∨ statusCode proxyRes = 304 →
     ∃ hdrs,
       responses (gateway W now store req).1 = [Relay (statusCode proxyRes) hdrs data]
       ∧ headersRelayed proxyRes hdrs)
  ∧ (HttpProxy.zipped proxyRes data = true → statusCode proxyRes ≠ 304 →
     match gunzip W data with
     | Js.Return plain =>
         ∃ hdrs,
           responses (gateway W now store req).1
           = [Relay (statusCode proxyRes) hdrs
                (if HttpProxy.zipped proxyRes plain then gzip W plain else plain)]
           ∧ headersRelayed proxyRes hdrs
     | Js.Throw err =>
         responses (gateway W now store req).1
         = [SendJson 500 (internalServerError (Js.message err))]
     end)
  ∧ ∀ m, m ∈ mounts → ∀ proxyRes' data' req',
      (HttpProxy.userResDecorator (options m) proxyRes' data' req').2 = data'
      ∧ forallb isLog (HttpProxy.userResDecorator (options m) proxyRes' data' req').1 = true.
Proof.
  intros Hin Hb.
  destruct (gateway_outbound W now store req h o Hin)
    as (m & req' & d & Hm & _ & _ & _ & _ & _ & Et & Eo).
  split; [exact Eo|].
  rewrite Et, Hb, logged_responses. clear Et.
  split; [|split].
  - intros Hz.
    destruct (settle_replied W m req' proxyRes data Hm)
      as [[Hs ->]|[(Hs & err & Hz' & _ & _)|(Hs & plain & msg & Hg & ->)]].
    + eexists. split; [reflexivity|apply copied_relayed].
    + destruct Hz as [Hz|Hz]; congruence.
    + destruct Hz as [Hz|Hz]; [|congruence].
      rewrite Hz in Hg. injection Hg as <-. rewrite Hz.
      eexists. split; [reflexivity|apply measured_relayed].
  - intros Hz Hs.
    destruct (settle_replied W m req' proxyRes data Hm)
      as [[Hs' _]|[(_ & err & _ & Hg & ->)|(_ & plain & msg & Hg & ->)]];
      [contradiction| |].
    + rewrite Hg. reflexivity.
    + rewrite Hz in Hg. rewrite Hg.
      eexists. split; [reflexivity|apply measured_relayed].
  - intros m' Hm' proxyRes' data' req''.
    destruct (mounts_shared m' Hm') as (_ & _ & service & ->).
    split; reflexivity.
Qed.

Lemma reply_relayed_witness :
  Outbound POST_SERVICE_URL Demo.forwarded ∈ (gateway Demo.up 5 ∅ Demo.posts42).1
  ∧ backend Demo.up POST_SERVICE_URL Demo.forwarded = Replied Demo.notFound Demo.bytes
  ∧ ∃ hdrs,
      responses (gateway Demo.up 5 ∅ Demo.posts42).1 = [Relay 404 hdrs Demo.bytes]
      ∧ headersRelayed Demo.notFound hdrs.
Proof.
  assert (H : Outbound POST_SERVICE_URL Demo.forwarded
              ∈ (gateway Demo.up 5 ∅ Demo.posts42).1).
  { vm_compute. do 2 apply list_elem_of_further. apply list_elem_of_here. }
  split; [exact H|]. split; [reflexivity|].
  exact (proj1 (proj2 (reply_relayed Demo.up 5 ∅ Demo.posts42 _ _ _ _ H eq_refl))
           (or_introl eq_refl)).
Defined.

(** C8, as the claim has it, fails: the post service answers
    [Demo.posts42] with the content type [text/plain], and the response
    of the gateway has [text/plain; charset=utf-8], the value
    [res.set] makes of it; the headers are not the backend's
    unchanged. *)
Lemma reply_headers_changed :
  Outbound POST_SERVICE_URL Demo.forwarded ∈ (gateway Demo.up 5 ∅ Demo.posts42).1
  ∧ backend Demo.up POST_SERVICE_URL Demo.forwarded = Replied Demo.notFound Demo.bytes
  ∧ responses (gateway Demo.up 5 ∅ Demo.posts42).1 = [Probe.relayed]
  ∧ Probe.relayed
    ≠ Relay (statusCode Demo.notFound) (resHeaders Demo.notFound) Demo.bytes
  ∧ Js.get "content-type" (resHeaders Demo.notFound) = Some "text/plain"
  ∧ (∀ status hdrs body, Probe.relayed = Relay status hdrs body →
       Js.get "content-type" hdrs = Some "text/plain; charset=utf-8").
Proof.
  split.
  { vm_compute. do 2 apply list_elem_of_further. apply list_elem_of_here. }
  split; [reflexivity|]. split; [vm_compute; reflexivity|].
  split; [intros E; discriminate E|]. split; [reflexivity|].
  intros status hdrs body E. injection E as _ <- _. reflexivity.
Qed.

(** C4.  A request to [/v1/posts], [/v1/media], [/v1/search] or
    [/v1/profile] that carries no valid bearer credential never reaches
    a backend.  Once the limiter has admitted it and the logger has
    written its body, it is answered by [validateToken]'s refusal; a
    body the logger throws on is answered by [errorHandler] instead.  A
    request to [/v1/auth] is treated the same whatever token
    verification would say, and once admitted and logged it is sent to
    the identity service. *)
Theorem credential_required W now store req :
  (∀ p, p ∈ guardedPaths → mountMatches p (pathname req) = true →
        subjectOf W req = None →
        outbound (gateway W now store req).1 = []
        ∧ (RateLimit.admits rateLimitOptions now store req = true →
           (printable req →
            ∃ why, responses (gateway W now store req).1 = [SendUnauthorized why])
           ∧ (∀ err, Js.toString (bodyOf req) = Js.Throw err →
                responses (gateway W now store req).1 = [SendError err])))
  ∧ (mountMatches "/v1/auth" (pathname req) = true →
     (∀ verify',
        gateway {| verify := verify'; backend := backend W; encode := encode W;
                   gunzip := gunzip W; gzip := gzip W |} now store req
        = gateway W now store req)
     ∧ (RateLimit.admits rateLimitOptions now store req = true →
        printable req →
        ∃ o, outbound (gateway W now store req).1 = [Outbound IDENTITY_SERVICE_URL o])).
Proof.
  split.
  - intros p Hp Hm Hs.
    destruct (guarded_mount p Hp) as (m & Hin & <- & Hg).
    destruct (RateLimit.admits rateLimitOptions now store req) eqn:Ha.
    + destruct (Js.toString (bodyOf req)) as [shown|err] eqn:Hq.
      * assert (Hq' : printable req) by (exists shown; exact Hq).
        destruct (refused_trace W now store req m Ha Hq' Hin Hm Hg Hs) as [why ->].
        rewrite logged_outbound, logged_responses.
        split; [reflexivity|]. intros _. split.
        -- intros _. exists why. reflexivity.
        -- intros err E. discriminate E.
      * rewrite (gateway_unprinted W now store req err Ha Hq).
        rewrite logged_outbound, logged_responses.
        split; [reflexivity|]. intros _. split.
        -- intros [shown E]. congruence.
        -- intros err' [= <-]. reflexivity.
    + rewrite (gateway_denied W now store req Ha).
      split; [reflexivity|]. intros E. discriminate E.
  - intros Hm.
    assert (T : ∀ W', RateLimit.admits rateLimitOptions now store req = true →
                printable req →
                (gateway W' now store req).1
                = (logRequest req).1
                  ++ Outbound IDENTITY_SERVICE_URL
                       (sentFor W' req
                          (assignHeader "Content-Type" "application/json"
                             (HttpProxy.buildProxyReq identityOptions "/v1/auth" req)))
                     :: HttpProxy.settle W' identityOptions req
                          (backend W' IDENTITY_SERVICE_URL
                             (sentFor W' req
                                (assignHeader "Content-Type" "application/json"
                                   (HttpProxy.buildProxyReq identityOptions
                                      "/v1/auth" req))))).
    { intros W' Ha Hq.
      rewrite (mount_trace W' now store req _ req Ha Hq auth_mounted Hm)
        by (left; split; reflexivity).
      reflexivity. }
    split.
    + intros verify'.
      apply injective_projections; [|rewrite !gateway_store; reflexivity].
      destruct (RateLimit.admits rateLimitOptions now store req) eqn:Ha.
      * destruct (Js.toString (bodyOf req)) as [shown|err] eqn:Hq.
        -- assert (Hq' : printable req) by (exists shown; exact Hq).
           rewrite (T _ eq_refl Hq'), (T W eq_refl Hq'). reflexivity.
        -- rewrite !(gateway_unprinted _ now store req err Ha Hq). reflexivity.
      * rewrite !gateway_denied by exact Ha. reflexivity.
    + intros Ha Hq. eexists. rewrite (T W Ha Hq), logged_outbound.
      apply (sent_outbound W _ req _ _ auth_mounted).
Qed.

Lemma credential_required_witness :
  "/v1/posts" ∈ guardedPaths
  ∧ mountMatches "/v1/posts" (pathname Demo.anonymous) = true
  ∧ subjectOf Demo.up Demo.anonymous = None
  ∧ outbound (gateway Demo.up 5 ∅ Demo.anonymous).1 = []
  ∧ (∃ why, responses (gateway Demo.up 5 ∅ Demo.anonymous).1 = [SendUnauthorized why])
  ∧ mountMatches "/v1/auth" (pathname Demo.neighbour) = true
  ∧ ∃ o, outbound (gateway Demo.up 5 ∅ Demo.neighbour).1
         = [Outbound IDENTITY_SERVICE_URL o].
Proof.
  assert (Hp : "/v1/posts" ∈ guardedPaths) by apply list_elem_of_here.
  assert (Ha : RateLimit.admits rateLimitOptions 5 ∅ Demo.anonymous = true)
    by (vm_compute; reflexivity).
  assert (Ha' : RateLimit.admits rateLimitOptions 5 ∅ Demo.neighbour = true)
    by (vm_compute; reflexivity).
  assert (Hq : printable Demo.anonymous) by (exists "[object Object]"; reflexivity).
  assert (Hq' : printable Demo.neighbour) by (exists "[object Object]"; reflexivity).
  split; [exact Hp|]. split; [reflexivity|]. split; [reflexivity|].
  pose proof (proj1 (credential_required Demo.up 5 ∅ Demo.anonymous)
                "/v1/posts" Hp eq_refl eq_refl) as [Ho Hr].
  split; [exact Ho|]. split; [exact (proj1 (Hr Ha) Hq)|]. split; [reflexivity|].
  exact (proj2 (proj2 (credential_required Demo.up 5 ∅ Demo.neighbour) eq_refl) Ha' Hq').
Defined.

(** C5.  For a request to a mount behind [validateToken] that carries a
    valid credential, whatever the gateway sends to the backend has the
    credential's subject as its [x-user-id], in the options object and
    on the wire.  The gateway does send it once the limiter has
    admitted the request and the logger has written its body, provided
    that on the media mount the request has a content type. *)
Theorem identity_header W now store req p subject :
  p ∈ guardedPaths →
  mountMatches p (pathname req) = true →
  subjectOf W req = Some subject →
  (∀ h o, Outbound h o ∈ (gateway W now store req).1 →
     Js.get "x-user-id" (reqHeaders o) = Some subject
     ∧ (Node.incoming (headers req) = true →
        Node.sentHeader "x-user-id" (reqHeaders o) = Some subject))
  ∧ (RateLimit.admits rateLimitOptions now store req = true →
     printable req →
     (p = "/v1/media" → is_Some (Js.get "content-type" (headers req))) →
     ∃ h o, outbound (gateway W now store req).1 = [Outbound h o]).
Proof.
  intros Hp Hm Hs.
  destruct (guarded_mount p Hp) as (m & Hin & <- & Hg).
  pose proof (routeOf_mount req m Hin Hm) as Hr.
  split.
  - intros h o Ho.
    destruct (gateway_outbound W now store req h o Ho)
      as (m' & req' & d & _ & Hr' & He & Hd & _ & -> & _).
    rewrite Hr in Hr'. injection Hr' as <-.
    destruct He as [[Hg' _]|[_ (subject' & Hs' & ->)]]; [congruence|].
    rewrite Hs in Hs'. injection Hs' as <-.
    destruct (guarded_decorated m req subject d Hin Hg Hd) as [G S].
    split.
    + rewrite sentFor_get by discriminate. exact G.
    + intros Hi. rewrite sentFor_sent by discriminate. exact (S Hi).
  - intros Ha Hq Hc.
    destruct (guarded_returns m req subject Hin Hg Hc) as [d Hd].
    rewrite (mount_trace W now store req m (withUser {| userId := subject |} req)
               Ha Hq Hin Hm)
      by (right; split; [exact Hg|exists subject; split; [exact Hs|reflexivity]]).
    rewrite Hd, logged_outbound. eexists _, _.
    apply (sent_outbound W _ _ _ _ Hin).
Qed.

Lemma identity_header_witness :
  "/v1/posts" ∈ guardedPaths
  ∧ mountMatches "/v1/posts" (pathname Demo.posts42) = true
  ∧ subjectOf Demo.up Demo.posts42 = Some "u42"
  ∧ Outbound POST_SERVICE_URL Demo.forwarded ∈ (gateway Demo.up 5 ∅ Demo.posts42).1
  ∧ Node.incoming (headers Demo.posts42) = true
  ∧ Js.get "x-user-id" (reqHeaders Demo.forwarded) = Some "u42"
  ∧ Node.sentHeader "x-user-id" (reqHeaders Demo.forwarded) = Some "u42".
Proof.
  assert (Hp : "/v1/posts" ∈ guardedPaths) by apply list_elem_of_here.
  assert (Ho : Outbound POST_SERVICE_URL Demo.forwarded
               ∈ (gateway Demo.up 5 ∅ Demo.posts42).1).
  { vm_compute. do 2 apply list_elem_of_further. apply list_elem_of_here. }
  assert (Hi : Node.incoming (headers Demo.posts42) = true) by (vm_compute; reflexivity).
  pose proof (proj1 (identity_header Demo.up 5 ∅ Demo.posts42 "/v1/posts" "u42"
                       Hp eq_refl eq_refl) _ _ Ho) as [G S].
  split; [exact Hp|]. split; [reflexivity|]. split; [reflexivity|].
  split; [exact Ho|]. split; [exact Hi|]. split; [exact G|exact (S Hi)].
Defined.

(** C6.  Take an authenticated request to the media mount with a
    content type.  Whatever the gateway sends for it goes to the media
    service, its stream piped and not parsed (the mount has
    [parseReqBody: false]).  If the content type starts with
    [multipart/form-data], the body goes out byte for byte as it came
    in, the decorator assigns no [Content-Type] and the header sent is
    the inbound one; otherwise the decorator assigns
    [application/json] and that is what is sent.  The gateway does send
    it once the limiter has admitted the request and the logger has
    written its body, which for a multipart request it always does. *)
Theorem media_content_type W now store req subject contentType :
  mountMatches "/v1/media" (pathname req) = true →
  subjectOf W req = Some subject →
  Node.incoming (headers req) = true →
  Js.get "content-type" (headers req) = Some contentType →
  HttpProxy.parseReqBody mediaOptions = false
  ∧ (∀ h o, Outbound h o ∈ (gateway W now store req).1 →
       h = MEDIA_SERVICE_URL
       ∧ if Js.startsWith contentType "multipart/form-data"
         then reqBody o = Piped (entity req)
              ∧ Node.sentHeader "content-type" (reqHeaders o) = Some contentType
              ∧ Js.get "Content-Type" (reqHeaders o) = None
         else Node.sentHeader "content-type" (reqHeaders o) = Some "application/json"
              ∧ Js.get "Content-Type" (reqHeaders o) = Some "application/json")
  ∧ (RateLimit.admits rateLimitOptions now store req = true →
     Js.startsWith contentType "multipart/form-data" = true ∨ printable req →
     ∃ o, outbound (gateway W now store req).1 = [Outbound MEDIA_SERVICE_URL o]).
Proof.
  intros Hm Hs Hi Hc. split; [reflexivity|].
  pose proof (routeOf_mount req _ media_mounted Hm) as Hr.
  split.
  - intros h o Ho.
    destruct (gateway_outbound W now store req h o Ho)
      as (m' & req' & d & _ & Hr' & He & Hd & -> & -> & _).
    rewrite Hr in Hr'. injection Hr' as <-.
    destruct He as [[Hg' _]|[_ (subject' & Hs' & ->)]]; [discriminate Hg'|].
    rewrite Hs in Hs'. injection Hs' as <-.
    split; [reflexivity|].
    cbn [options path] in Hd. rewrite media_decorator, Hc in Hd. cbv zeta in Hd.
    destruct (media_content_type_sent subject contentType req Hi Hc) as (S1 & G1 & S2).
    destruct (Js.startsWith contentType "multipart/form-data") eqn:Hmp;
      injection Hd as <-; rewrite (sentFor_piped _ _ _ (unread req)) by reflexivity.
    + rewrite sentFor_body. split; [|split; [exact S1|exact G1]].
      cbn. f_equal. exact (multipart_unread req contentType Hc Hmp).
    + split; [exact S2|apply get_set_eq].
  - intros Ha Hq.
    assert (Hq' : printable req).
    { destruct Hq as [Hmp|Hq]; [|exact Hq].
      apply unread_printable, (multipart_not_read req contentType Hc Hmp). }
    rewrite (mount_trace W now store req _ (withUser {| userId := subject |} req)
               Ha Hq' media_mounted Hm)
      by (right; split; [reflexivity|exists subject; split; [exact Hs|reflexivity]]).
    cbn [options host path]. rewrite media_decorator, Hc. cbv zeta.
    rewrite logged_outbound. eexists.
    apply (sent_outbound W _ _ _ _ media_mounted).
Qed.

Lemma media_content_type_witness :
  (∃ o, outbound (gateway Demo.up 5 ∅ Demo.upload).1 = [Outbound MEDIA_SERVICE_URL o]
        ∧ reqBody o = Piped Demo.bytes
        ∧ Node.sentHeader "content-type" (reqHeaders o) = Some Demo.multipart)
  ∧ (∃ o, outbound (gateway Demo.up 5 ∅ Demo.uploadText).1 = [Outbound MEDIA_SERVICE_URL o]
          ∧ Node.sentHeader "content-type" (reqHeaders o) = Some "application/json").
Proof.
  assert (Ha : RateLimit.admits rateLimitOptions 5 ∅ Demo.upload = true)
    by (vm_compute; reflexivity).
  assert (Ha' : RateLimit.admits rateLimitOptions 5 ∅ Demo.uploadText = true)
    by (vm_compute; reflexivity).
  assert (Hq : printable Demo.uploadText) by (exists "[object Object]"; reflexivity).
  split.
  - destruct (media_content_type Demo.up 5 ∅ Demo.upload "u42" Demo.multipart
                eq_refl eq_refl eq_refl eq_refl) as (_ & Hs & He).
    destruct (He Ha (or_introl eq_refl)) as [o Ho].
    assert (Hin : Outbound MEDIA_SERVICE_URL o ∈ (gateway Demo.up 5 ∅ Demo.upload).1).
    { apply outbound_inv. rewrite Ho. apply list_elem_of_here. }
    destruct (Hs _ _ Hin) as (_ & Hb & Hh & _).
    exists o. split; [exact Ho|]. split; [exact Hb|exact Hh].
  - destruct (media_content_type Demo.up 5 ∅ Demo.uploadText "u42" "text/plain"
                eq_refl eq_refl eq_refl eq_refl) as (_ & Hs & He).
    destruct (He Ha' (or_intror Hq)) as [o Ho].
    assert (Hin : Outbound MEDIA_SERVICE_URL o ∈ (gateway Demo.up 5 ∅ Demo.uploadText).1).
    { apply outbound_inv. rewrite Ho. apply list_elem_of_here. }
    destruct (Hs _ _ Hin) as (_ & Hh & _).
    exists o. split; [exact Ho|exact Hh].
Defined.

(** C10.  An admitted, authenticated request to the media mount that
    has no Content-Type header makes the media decorator throw (it
    calls [startsWith] on [undefined]): nothing is sent to the backend,
    and the request is answered by the error handler with 500 and the
    error's message. *)
Theorem media_without_content_type W now store req subject :
  RateLimit.admits rateLimitOptions now store req = true →
  mountMatches "/v1/media" (pathname req) = true →
  subjectOf W req = Some subject →
  Js.get "content-type" (headers req) = None →
  HttpProxy.proxyReqOptDecorator mediaOptions
    (HttpProxy.buildProxyReq mediaOptions "/v1/media" (withUser {| userId := subject |} req))
    (withUser {| userId := subject |} req)
  = Js.Throw (Js.readOfUndefined "startsWith")
  ∧ outbound (gateway W now store req).1 = []
  ∧ responses (gateway W now store req).1
    = [SendJson 500
         (internalServerError
            "Cannot read properties of undefined (reading 'startsWith')")].
Proof.
  intros Ha Hm Hs Hc.
  assert (Hd : HttpProxy.proxyReqOptDecorator mediaOptions
                 (HttpProxy.buildProxyReq mediaOptions "/v1/media"
                    (withUser {| userId := subject |} req))
                 (withUser {| userId := subject |} req)
               = Js.Throw (Js.readOfUndefined "startsWith")).
  { rewrite media_decorator, Hc. reflexivity. }
  split; [exact Hd|].
  rewrite (mount_trace W now store req _ (withUser {| userId := subject |} req)
             Ha (untyped_printable req Hc) media_mounted Hm)
    by (right; split; [reflexivity|exists subject; split; [exact Hs|reflexivity]]).
  cbn [options host path]. rewrite Hd, logged_outbound, logged_responses.
  split; reflexivity.
Qed.

Lemma media_without_content_type_witness :
  RateLimit.admits rateLimitOptions 5 ∅ Demo.listing = true
  ∧ mountMatches "/v1/media" (pathname Demo.listing) = true
  ∧ subjectOf Demo.up Demo.listing = Some "u42"
  ∧ Js.get "content-type" (headers Demo.listing) = None
  ∧ outbound (gateway Demo.up 5 ∅ Demo.listing).1 = []
  ∧ responses (gateway Demo.up 5 ∅ Demo.listing).1
    = [SendJson 500
         (internalServerError
            "Cannot read properties of undefined (reading 'startsWith')")].
Proof.
  assert (Ha : RateLimit.admits rateLimitOptions 5 ∅ Demo.listing = true)
    by (vm_compute; reflexivity).
  split; [exact Ha|]. split; [reflexivity|]. split; [reflexivity|].
  split; [reflexivity|].
  exact (proj2 (media_without_content_type Demo.up 5 ∅ Demo.listing "u42"
                  Ha eq_refl eq_refl eq_refl)).
Defined.

End Claims.

(** * Further properties of the pipeline *)

Section Shape.

Variable W : World.

Implicit Types (store : gmap string RateLimit.Counter) (req : Request) (now : Z)
  (t : list Event).

(** Whichever way a request goes, its trace holds at most one
    response and at most one call, none when the limiter denied; the
    response is missing only where the call never settles. *)
Lemma journey_shape now store req t :
  Journey W now store req t →
  length (responses t) ≤ 1
  ∧ length (outbound t)
    ≤ (if RateLimit.admits rateLimitOptions now store req then 1 else 0)
  ∧ (responses t = [] ↔ ∃ h o, Outbound h o ∈ t ∧ backend W h o = Stalled).
Proof.
  intros J.
  assert (N : ∀ t', outbound t' = [] → length (responses t') = 1 →
              length (responses t') ≤ 1
              ∧ length (outbound t') ≤ 1
              ∧ (responses t' = [] ↔ ∃ h o, Outbound h o ∈ t' ∧ backend W h o = Stalled)).
  { intros t' Ho Hr. rewrite Ho, Hr. split; [lia|]. split; [simpl; lia|]. split.
    - intros E. rewrite E in Hr. discriminate Hr.
    - intros (h & o & Hin & _). apply outbound_elem in Hin. rewrite Ho in Hin.
      apply elem_of_nil in Hin. contradiction. }
  destruct J as [Ha|err Ha Hp|Ha Hp Hr|m why Ha Hp Hr Hg Hs
                |m req' err Ha Hp Hr He Hd|m req' d Ha Hp Hr He Hd];
    rewrite Ha.
  - destruct (N (RateLimit.handler rateLimitOptions req) eq_refl eq_refl) as (? & _ & ?).
    split; [assumption|]. split; [simpl; lia|assumption].
  - apply N; [rewrite logged_outbound|rewrite logged_responses]; reflexivity.
  - apply N; [rewrite logged_outbound|rewrite logged_responses]; reflexivity.
  - apply N; [rewrite logged_outbound|rewrite logged_responses]; reflexivity.
  - apply N; [rewrite logged_outbound|rewrite logged_responses]; reflexivity.
  - destruct (routeOf_mounts _ _ Hr) as [Hm _].
    pose proof (settle_responses W m req'
                  (backend W (host m) (sentFor W req' d)) Hm) as L.
    rewrite logged_outbound, logged_responses, (sent_outbound W m req' _ _ Hm).
    change (responses (Outbound ?h ?o :: ?t)) with (responses t).
    split; [rewrite L; destruct (backend _ _ _); lia|]. split; [simpl; lia|]. split.
    + intros E. rewrite E in L. exists (host m), (sentFor W req' d). split.
      * apply elem_of_app. right. apply list_elem_of_here.
      * destruct (backend _ _ _); [discriminate L..|reflexivity].
    + intros (h & o & Hin & Hb). apply outbound_elem in Hin.
      rewrite logged_outbound, (sent_outbound W m req' _ _ Hm) in Hin.
      apply list_elem_of_singleton in Hin. injection Hin as -> ->.
      rewrite Hb in L |- *. reflexivity.
Qed.

Lemma gateway_calls now store req :
  length (outbound (gateway W now store req).1)
  ≤ (if RateLimit.admits rateLimitOptions now store req then 1 else 0).
Proof. apply (journey_shape now store req), gateway_journey. Qed.

Lemma routeOf_none req :
  (∀ m, m ∈ mounts → mountMatches (path m) (pathname req) = false) →
  routeOf req = None.
Proof.
  intros H. destruct (routeOf req) as [m|] eqn:E; [|reflexivity].
  destruct (routeOf_mounts _ _ E) as [Hin Hm]. rewrite (H m Hin) in Hm. discriminate Hm.
Qed.

End Shape.

Section Frames.

Implicit Types (req : Request) (o : Js.Obj) (n k v : string).

(** A decorator of server.js touches nothing of the outbound request
    but the two headers it assigns. *)
Lemma decorator_frame m (built : ProxyReq) req decorated :
  m ∈ mounts →
  HttpProxy.proxyReqOptDecorator (options m) built req = Js.Return decorated →
  reqMethod decorated = reqMethod built
  ∧ reqPath decorated = reqPath built
  ∧ reqBody decorated = reqBody built
  ∧ ∀ n, Js.toLowerCase n ≠ "content-type" → Js.toLowerCase n ≠ "x-user-id" →
         Node.sentHeader n (reqHeaders decorated) = Node.sentHeader n (reqHeaders built).
Proof.
  intros Hin Hd. unfold mounts in Hin.
  assert (F : ∀ n k v o,
             Js.toLowerCase n ≠ Js.toLowerCase k →
             Node.sentHeader n (Js.set k v o) = Node.sentHeader n o)
    by (intros; apply sentHeader_set_other; congruence).
  repeat (apply elem_of_cons in Hin as [->|Hin]);
    [..|apply elem_of_nil in Hin; contradiction];
    cbn [options HttpProxy.proxyReqOptDecorator identityOptions postOptions
         mediaOptions searchOptions profileOptions] in Hd;
    unfold userIdOf in Hd;
    destruct (user req) as [u|]; simpl in Hd; try discriminate Hd;
    try (destruct (Js.get "content-type" (headers req)) as [contentType|];
         [destruct (Js.startsWith contentType "multipart/form-data"); simpl in Hd
         |discriminate Hd]);
    injection Hd as <-;
    (repeat split; try reflexivity);
    intros n H1 H2; simpl;
    repeat (rewrite F by assumption); reflexivity.
Qed.

(** What the proxy builds carries every inbound header it does not
    skip. *)
Lemma carried_sent n req :
  Node.incoming (headers req) = true →
  Js.toLowerCase n ∉ HttpProxy.skipHdrs →
  Node.sentHeader n (HttpProxy.carriedHeaders req)
  = Js.get (Js.toLowerCase n) (headers req).
Proof.
  intros Hi Hn.
  rewrite sentHeader_get by (apply carried_unambiguous; [exact Hi|apply toLowerCase_idem]).
  apply get_carried. unfold HttpProxy.skipHdrs in *. simpl.
  repeat match goal with
         | |- context [String.eqb ?a ?b] =>
             destruct (String.eqb_spec a b) as [E|_];
             [exfalso; apply Hn; rewrite E;
              repeat first [apply list_elem_of_here | apply list_elem_of_further]|]
         end.
  reflexivity.
Qed.

End Frames.

Section Sequences.

Import RateLimit.

Implicit Types (store : gmap string Counter) (req : Request) (now : Z).

Lemma append_cancel (p a b : string) : p +:+ a = p +:+ b → a = b.
Proof.
  induction p as [|c p IH]; intros E.
  - exact E.
  - apply IH. change (String c (p +:+ a) = String c (p +:+ b)) in E.
    injection E as E. exact E.
Qed.

(** What the next hit of a key will be depends on the counter of that
    key only. *)
Lemma increment_local window now key store1 store2 :
  store1 !! key = store2 !! key →
  (increment window now key store1).1 = (increment window now key store2).1.
Proof. intros E. unfold increment. rewrite E. reflexivity. Qed.

Lemma decisions_local opts client arrivals :
  ∀ store1 store2,
  store1 !! client = store2 !! client →
  decisionsFor client (decisions opts store1 arrivals)
  = decisionsFor client (decisions opts store2 (arrivalsOf client arrivals)).
Proof.
  induction arrivals as [|[now req] arrivals IH]; intros store1 store2 E.
  - reflexivity.
  - unfold arrivalsOf. cbn [List.filter snd]. fold (arrivalsOf client arrivals).
    destruct (String.eqb_spec (ip req) client) as [Hc|Hc].
    + cbn [decisions]. rewrite !decisionsFor_cons. unfold keyGenerator.
      destruct (decide (ip req = client)) as [_|]; [|contradiction].
      rewrite !admits_hits, !rateLimit_store. unfold keyGenerator. subst client.
      rewrite (increment_local _ _ _ store1 store2 E). f_equal.
      apply IH. unfold increment. cbn [snd]. rewrite !lookup_insert_eq, E. reflexivity.
    + cbn [decisions]. rewrite decisionsFor_cons. unfold keyGenerator.
      destruct (decide (ip req = client)) as [|_]; [contradiction|].
      apply IH. rewrite rateLimit_store, increment_other by exact Hc. exact E.
Qed.

(** A list of decisions that says "admit" only below [n] has at most
    [n] admissions left from position [k] on. *)
Lemma admissions_bound (n : nat) (ds : list bool) :
  ∀ k, (∀ i d, ds !! i = Some d → d = bool_decide (k + i < n)) →
       length (List.filter (fun d => d) ds) ≤ n - k.
Proof.
  induction ds as [|d ds IH]; intros k H; simpl; [lia|].
  assert (Hd : d = bool_decide (k + 0 < n)) by (apply H; reflexivity).
  assert (Ht : length (List.filter (fun d => d) ds) ≤ n - S k).
  { apply IH. intros i d' Hi. replace (S k + i) with (k + S i) by lia.
    apply H. exact Hi. }
  destruct d; simpl; [|lia].
  symmetry in Hd. apply bool_decide_eq_true in Hd. lia.
Qed.

(** The calls made for a client are at most as many as its admitted
    requests. *)
Lemma calls_admitted (W : World) client arrivals :
  ∀ store,
  length (callsFor client (serve W store arrivals))
  ≤ length (List.filter (fun d => d)
              (decisionsFor client (decisions rateLimitOptions store arrivals))).
Proof.
  induction arrivals as [|[now req] arrivals IH]; intros store.
  - reflexivity.
  - cbn [serve decisions]. rewrite decisionsFor_cons, gateway_store.
    unfold callsFor, keyGenerator. cbn [List.filter fst snd].
    fold (callsFor client (serve W (rateLimit rateLimitOptions now store req).2 arrivals)).
    specialize (IH (rateLimit rateLimitOptions now store req).2).
    destruct (String.eqb_spec (ip req) client) as [Hc|Hc].
    + destruct (decide (ip req = client)) as [_|]; [|contradiction].
      cbn [map concat snd]. rewrite length_app.
      fold (callsFor client (serve W (rateLimit rateLimitOptions now store req).2 arrivals)).
      pose proof (gateway_calls W now store req) as Hg.
      destruct (admits rateLimitOptions now store req); simpl; lia.
    + destruct (decide (ip req = client)) as [|_]; [contradiction|]. exact IH.
Qed.

Lemma stripPrefix_inv (p s rest : string) :
  stripPrefix p s = Some rest → s = p +:+ rest.
Proof.
  revert s. induction p as [|a p IH]; intros s E.
  - destruct s; simpl in E; injection E as <-; reflexivity.
  - destruct s as [|b s]; simpl in E; [discriminate E|].
    destruct (Ascii.eqb_spec a b) as [->|]; [|discriminate E].
    change (String b s = String b (p +:+ rest)). f_equal. apply IH, E.
Qed.

Lemma lowered_prefix (p : string) :
  String.prefix "/v1" (Js.toLowerCase p) = true →
  Js.toLowerCase (String.substring 0 3 p) = "/v1".
Proof.
  intros H. apply prefix_inv in H as [rest E].
  destruct p as [|a [|b [|c p]]]; simpl in E; try discriminate E.
  change ("/v1" +:+ rest) with (String "/" (String "v" (String "1" rest))) in E.
  injection E as E1 E2 E3 _. simpl. rewrite E1, E2, E3.
  destruct p; reflexivity.
Qed.

Lemma mounts_under_v1 (m : Mount) :
  m ∈ mounts → String.prefix "/v1" (Js.toLowerCase (path m)) = true.
Proof.
  intros Hin. unfold mounts in Hin.
  repeat (apply elem_of_cons in Hin as [->|Hin]);
    [..|apply elem_of_nil in Hin; contradiction]; reflexivity.
Qed.

Lemma prefix_trans (a b s : string) :
  String.prefix a b = true → String.prefix b s = true → String.prefix a s = true.
Proof.
  intros H1 H2. apply prefix_inv in H1 as [r1 ->]. apply prefix_inv in H2 as [r2 ->].
  clear. induction a as [|c a IH]; simpl.
  - destruct (_ +:+ _); reflexivity.
  - change (String c a +:+ r1) with (String c (a +:+ r1)).
    change (String c (a +:+ r1) +:+ r2) with (String c ((a +:+ r1) +:+ r2)).
    simpl. destruct (ascii_dec c c); [exact IH|congruence].
Qed.

End Sequences.

Section MoreClaims.

Implicit Types (W : World) (store : gmap string RateLimit.Counter)
  (req : Request) (now : Z).

(** X1.  Every request that gets past [cors()] and [express.json()]
    counts against the quota of its address, whatever becomes of it
    afterwards: the counters the application leaves are those of one
    increment for [req.ip], for any backend, token verifier, route and
    credential.  Inside an open window the count goes up by one and the
    window is not extended.  An OPTIONS request, which [cors()] answers
    itself, and a request whose body [express.json()] rejects, which
    goes straight to the error handler, are not counted; and no
    request touches the counter of another address. *)
Theorem every_request_counts W now store (a : Arrival) :
  (app W now store a).2
  = (if reachesLimiter a
     then (RateLimit.increment (15 * 60 * 1000) now (ip (received a)) store).2
     else store)
  ∧ (reachesLimiter a = true →
     app W now store a = gateway W now store (received a)
     ∧ ∀ c, store !! ip (received a) = Some c → (now < RateLimit.resetTime c)%Z →
         (app W now store a).2 !! ip (received a)
         = Some {| RateLimit.totalHits := S (RateLimit.totalHits c);
                   RateLimit.resetTime := RateLimit.resetTime c |})
  ∧ (reachesLimiter a = false →
     outbound (app W now store a).1 = []
     ∧ length (responses (app W now store a).1) = 1)
  ∧ (∀ other, other ≠ ip (received a) → (app W now store a).2 !! other = store !! other).
Proof.
  assert (G : (gateway W now store (received a)).2
              = (RateLimit.increment (15 * 60 * 1000) now (ip (received a)) store).2).
  { rewrite gateway_store, rateLimit_store. reflexivity. }
  unfold app, reachesLimiter.
  destruct (preflight (received a)); cbn [negb andb fst snd].
  { split; [reflexivity|]. split; [intros E; discriminate E|].
    split; [intros _; split; reflexivity|]. reflexivity. }
  destruct (rejected a) as [err|]; cbn [fst snd].
  { split; [reflexivity|]. split; [intros E; discriminate E|].
    split; [intros _; split; reflexivity|]. reflexivity. }
  split; [exact G|]. split; [|split; [intros E; discriminate E|]].
  - intros _. split; [reflexivity|]. intros [k reset] Hs Hlt. simpl in Hlt.
    rewrite G, (increment_open _ _ _ _ _ _ Hs Hlt). simpl. apply lookup_insert_eq.
  - intros other Hne. rewrite G. apply increment_other. congruence.
Qed.

Lemma every_request_counts_witness :
  reachesLimiter Probe.preflighted = false
  ∧ (app Demo.up 5 Demo.exhausted Probe.preflighted).2 = Demo.exhausted
  ∧ reachesLimiter Probe.garbled = false
  ∧ (app Demo.up 5 Demo.exhausted Probe.garbled).2 = Demo.exhausted
  ∧ reachesLimiter Probe.arrived = true
  ∧ (app Demo.up 5 Demo.exhausted Probe.arrived).2 !! "10.0.0.7"
    = Some {| RateLimit.totalHits := 101; RateLimit.resetTime := 900000 |}.
Proof.
  split; [reflexivity|].
  split; [exact (proj1 (every_request_counts Demo.up 5 Demo.exhausted Probe.preflighted))|].
  split; [reflexivity|].
  split; [exact (proj1 (every_request_counts Demo.up 5 Demo.exhausted Probe.garbled))|].
  split; [reflexivity|].
  refine (proj2 (proj1 (proj2 (every_request_counts Demo.up 5 Demo.exhausted
                                 Probe.arrived)) eq_refl)
            {| RateLimit.totalHits := 100; RateLimit.resetTime := 900000 |} _ _).
  - vm_compute. reflexivity.
  - reflexivity.
Defined.

(** X2.  No request is answered twice and none causes two calls: the
    trace of the gateway holds at most one response and at most one
    call to a backend.  The response is missing exactly when the call
    was made and the backend never settles it, server.js setting no
    timeout on the proxy. *)
Theorem answered_once W now store req :
  length (responses (gateway W now store req).1) ≤ 1
  ∧ length (outbound (gateway W now store req).1) ≤ 1
  ∧ (responses (gateway W now store req).1 = []
     ↔ ∃ h o, Outbound h o ∈ (gateway W now store req).1 ∧ backend W h o = Stalled).
Proof.
  destruct (journey_shape W now store req _ (gateway_journey W now store req))
    as (Hr & Hc & Hs).
  split; [exact Hr|]. split; [|exact Hs].
  destruct (RateLimit.admits rateLimitOptions now store req); lia.
Qed.

(** X3.  Nothing reaches a backend unless the limiter admitted the
    request, the logger got through its body, the path Express routes
    on is under one of the five mounts, and, where the mount has
    [validateToken] in front, the request carries a valid credential. *)
Theorem forwarded_only_if_cleared W now store req h o :
  Outbound h o ∈ (gateway W now store req).1 →
  RateLimit.admits rateLimitOptions now store req = true
  ∧ printable req
  ∧ ∃ m, m ∈ mounts
         ∧ mountMatches (path m) (pathname req) = true
         ∧ h = host m
         ∧ (path m ≠ "/v1/auth" → ∃ subject, subjectOf W req = Some subject).
Proof.
  intros Hin. split; [|split].
  - destruct (RateLimit.admits rateLimitOptions now store req) eqn:Ha; [reflexivity|].
    pose proof (gateway_calls W now store req) as Hc. rewrite Ha in Hc.
    apply outbound_elem in Hin.
    destruct (outbound (gateway W now store req).1); [|simpl in Hc; lia].
    apply elem_of_nil in Hin. contradiction.
  - destruct (Js.toString (bodyOf req)) as [shown|err] eqn:Hq; [exists shown; exact Hq|].
    exfalso.
    destruct (RateLimit.admits rateLimitOptions now store req) eqn:Ha.
    + rewrite (gateway_unprinted W now store req err Ha Hq) in Hin.
      apply outbound_elem in Hin. rewrite logged_outbound in Hin.
      apply elem_of_nil in Hin. contradiction.
    + rewrite (gateway_denied W now store req Ha) in Hin.
      apply outbound_elem, elem_of_nil in Hin. contradiction.
  - destruct (gateway_outbound W now store req h o Hin)
      as (m & req' & d & Hm & Hr & He & _ & -> & _).
    destruct (routeOf_mounts _ _ Hr) as [_ Hmatch].
    exists m. repeat split; try assumption.
    intros Hp. destruct He as [[Hg _]|[_ (subject & Hs & _)]]; [|eauto].
    exfalso. unfold mounts in Hm.
    repeat (apply elem_of_cons in Hm as [->|Hm]);
      [..|apply elem_of_nil in Hm; contradiction];
      first [discriminate Hg | contradiction Hp; reflexivity].
Qed.

Lemma forwarded_only_if_cleared_witness :
  Outbound POST_SERVICE_URL Demo.forwarded ∈ (gateway Demo.up 5 ∅ Demo.posts42).1
  ∧ RateLimit.admits rateLimitOptions 5 ∅ Demo.posts42 = true
  ∧ printable Demo.posts42.
Proof.
  assert (H : Outbound POST_SERVICE_URL Demo.forwarded
              ∈ (gateway Demo.up 5 ∅ Demo.posts42).1).
  { vm_compute. do 2 apply list_elem_of_further. apply list_elem_of_here. }
  split; [exact H|].
  destruct (forwarded_only_if_cleared Demo.up 5 ∅ Demo.posts42 _ _ H) as (Ha & Hq & _).
  split; [exact Ha|exact Hq].
Defined.

(** X4.  Each mount forwards to its own service and with the method
    of the inbound request: [/v1/auth] to the identity service,
    [/v1/posts] to the post service, [/v1/media] to the media service,
    [/v1/search] to the search service, [/v1/profile] to the profile
    service. *)
Theorem forwarded_to_its_service W now store req h o :
  Outbound h o ∈ (gateway W now store req).1 →
  reqMethod o = method req
  ∧ (mountMatches "/v1/auth" (pathname req) = true → h = IDENTITY_SERVICE_URL)
  ∧ (mountMatches "/v1/posts" (pathname req) = true → h = POST_SERVICE_URL)
  ∧ (mountMatches "/v1/media" (pathname req) = true → h = MEDIA_SERVICE_URL)
  ∧ (mountMatches "/v1/search" (pathname req) = true → h = SEARCH_SERVICE_URL)
  ∧ (mountMatches "/v1/profile" (pathname req) = true → h = PROFILE_SERVICE_URL).
Proof.
  intros Hin.
  destruct (gateway_outbound W now store req h o Hin)
    as (m & req' & d & Hm & Hr & He & Hd & -> & -> & _).
  destruct (decorator_frame m _ req' d Hm Hd) as (Em & _).
  destruct (entered_same W m req req' He) as (_ & _ & _ & _ & Emeth & _).
  assert (T : ∀ m', m' ∈ mounts →
              mountMatches (path m') (pathname req) = true → host m = host m').
  { intros m' Hm' Hmatch. pose proof (routeOf_mount req m' Hm' Hmatch) as Hr'.
    rewrite Hr in Hr'. injection Hr' as ->. reflexivity. }
  split; [rewrite sentFor_method, Em; exact Emeth|].
  repeat split; intros Hmatch;
    refine (T (Build_Mount _ _ _ _) _ Hmatch);
    unfold mounts;
    repeat first [apply list_elem_of_here | apply list_elem_of_further].
Qed.

Lemma forwarded_to_its_service_witness :
  Outbound POST_SERVICE_URL Demo.forwarded ∈ (gateway Demo.up 5 ∅ Demo.posts42).1
  ∧ mountMatches "/v1/posts" (pathname Demo.posts42) = true
  ∧ reqMethod Demo.forwarded = method Demo.posts42.
Proof.
  assert (H : Outbound POST_SERVICE_URL Demo.forwarded
              ∈ (gateway Demo.up 5 ∅ Demo.posts42).1).
  { vm_compute. do 2 apply list_elem_of_further. apply list_elem_of_here. }
  split; [exact H|]. split; [reflexivity|].
  exact (proj1 (forwarded_to_its_service Demo.up 5 ∅ Demo.posts42 _ _ H)).
Defined.

(** X5.  The limiter runs before the request logger: the trace of an
    admitted request starts with the logger's line of method and URL,
    followed by the line of the body when the body converts to a
    string; when the conversion throws, no line of the body is written,
    no backend is called and the answer is that of [errorHandler].  A
    denied request leaves no line at level info at all. *)
Theorem logged_after_admission W now store req :
  (RateLimit.admits rateLimitOptions now store req = true →
   ∃ rest,
     (gateway W now store req).1
     = Log Info ("Received " +:+ method req +:+ " request to " +:+ originalUrl req)
       :: rest
     ∧ (∀ shown, Js.toString (bodyOf req) = Js.Return shown →
          ∃ rest', rest = Log Info ("Request body, " +:+ shown) :: rest')
     ∧ (∀ err, Js.toString (bodyOf req) = Js.Throw err →
          responses rest = [SendError err]
          ∧ outbound rest = []
          ∧ ∀ shown, Log Info ("Request body, " +:+ shown) ∉ rest))
  ∧ (RateLimit.admits rateLimitOptions now store req = false →
     ∀ msg, Log Info msg ∉ (gateway W now store req).1).
Proof.
  split; intros Ha.
  - destruct (Js.toString (bodyOf req)) as [shown|err] eqn:Hq.
    + rewrite (gateway_admitted W now store req Ha) by (exists shown; exact Hq).
      rewrite (logRequest_printed req shown Hq). eexists. split; [reflexivity|].
      split; [|intros err E; discriminate E].
      intros shown' [= <-]. eexists. reflexivity.
    + rewrite (gateway_unprinted W now store req err Ha Hq).
      rewrite (logRequest_unprinted req err Hq). eexists. split; [reflexivity|].
      split; [intros shown E; discriminate E|].
      intros err' [= <-]. split; [reflexivity|]. split; [reflexivity|].
      intros shown Hin. cbn [errorHandler app] in Hin.
      apply list_elem_of_singleton in Hin. discriminate Hin.
  - rewrite (gateway_denied W now store req Ha). intros msg Hin.
    cbn [RateLimit.handler rateLimitOptions] in Hin.
    repeat (apply elem_of_cons in Hin as [Hin|Hin]; [discriminate Hin|]).
    apply elem_of_nil in Hin. contradiction.
Qed.

Lemma logged_after_admission_witness :
  RateLimit.admits rateLimitOptions 5 ∅ Demo.posts42 = true
  ∧ RateLimit.admits rateLimitOptions 5 Demo.exhausted Demo.posts42 = false
  ∧ (∃ rest,
       (gateway Demo.up 5 ∅ Demo.posts42).1
       = Log Info "Received POST request to /v1/posts/42?x=1"
         :: Log Info "Request body, [object Object]" :: rest)
  ∧ (Log Info "Received POST request to /v1/posts/42?x=1"
     ∉ (gateway Demo.up 5 Demo.exhausted Demo.posts42).1).
Proof.
  assert (Ha : RateLimit.admits rateLimitOptions 5 ∅ Demo.posts42 = true)
    by (vm_compute; reflexivity).
  assert (Hd : RateLimit.admits rateLimitOptions 5 Demo.exhausted Demo.posts42 = false)
    by (vm_compute; reflexivity).
  split; [exact Ha|]. split; [exact Hd|]. split.
  - destruct (proj1 (logged_after_admission Demo.up 5 ∅ Demo.posts42) Ha)
      as (rest & E & Hs & _).
    destruct (Hs "[object Object]" eq_refl) as [rest' ->].
    exists rest'. exact E.
  - exact (proj2 (logged_after_admission Demo.up 5 Demo.exhausted Demo.posts42) Hd _).
Defined.

(** X6.  No field of a body that is a JSON object reaches the log: the
    logger interpolates [req.body] into a template literal, so the line
    is [Request body, [object Object]] whatever the fields.  An object
    with a key named [toString] has no string to show: the conversion
    throws, no line of the body is written, and the request ends at
    [errorHandler] with no route tried and no backend called. *)
Theorem body_logged_opaquely W now store req fields :
  RateLimit.admits rateLimitOptions now store req = true →
  bodyOf req = Js.Object fields →
  if Js.hasOwn "toString" fields
  then responses (gateway W now store req).1 = [SendError Js.cannotConvert]
       ∧ outbound (gateway W now store req).1 = []
       ∧ ∀ shown, Log Info ("Request body, " +:+ shown) ∉ (gateway W now store req).1
  else (gateway W now store req).1 !! 1 = Some (Log Info "Request body, [object Object]").
Proof.
  intros Ha Hb.
  destruct (Js.hasOwn "toString" fields) eqn:Hk.
  - assert (Hq : Js.toString (bodyOf req) = Js.Throw Js.cannotConvert)
      by (rewrite Hb; simpl; rewrite Hk; reflexivity).
    rewrite (gateway_unprinted W now store req _ Ha Hq).
    rewrite logged_responses, logged_outbound.
    split; [reflexivity|]. split; [reflexivity|].
    rewrite (logRequest_unprinted req _ Hq). intros shown Hin.
    cbn [fst errorHandler app] in Hin.
    apply elem_of_cons in Hin as [Hin|Hin].
    + vm_compute in Hin. discriminate Hin.
    + apply list_elem_of_singleton in Hin. discriminate Hin.
  - assert (Hq : Js.toString (bodyOf req) = Js.Return "[object Object]")
      by (rewrite Hb; simpl; rewrite Hk; reflexivity).
    rewrite (gateway_admitted W now store req Ha) by (eexists; exact Hq).
    rewrite (logRequest_printed req _ Hq). reflexivity.
Qed.

Lemma body_logged_opaquely_witness :
  RateLimit.admits rateLimitOptions 5 ∅ Demo.posts42 = true
  ∧ (gateway Demo.up 5 ∅ Demo.posts42).1 !! 1
    = Some (Log Info "Request body, [object Object]")
  ∧ RateLimit.admits rateLimitOptions 5 ∅ Probe.hiding = true
  ∧ responses (gateway Demo.up 5 ∅ Probe.hiding).1 = [SendError Js.cannotConvert]
  ∧ outbound (gateway Demo.up 5 ∅ Probe.hiding).1 = [].
Proof.
  assert (Ha : RateLimit.admits rateLimitOptions 5 ∅ Demo.posts42 = true)
    by (vm_compute; reflexivity).
  assert (Ha' : RateLimit.admits rateLimitOptions 5 ∅ Probe.hiding = true)
    by (vm_compute; reflexivity).
  split; [exact Ha|]. split.
  - exact (body_logged_opaquely Demo.up 5 ∅ Demo.posts42 [] Ha eq_refl).
  - split; [exact Ha'|].
    destruct (body_logged_opaquely Demo.up 5 ∅ Probe.hiding
                [("toString", Js.Number "1")] Ha' eq_refl) as (Hr & Ho & _).
    split; [exact Hr|exact Ho].
Defined.

(** X7.  An admitted request whose path, as Express routes on it, is
    under none of the five mounts and whose body the logger got through
    is answered by Express's 404, with no token validation and no call
    to a backend. *)
Theorem unrouted_is_404 W now store req :
  RateLimit.admits rateLimitOptions now store req = true →
  printable req →
  (∀ m, m ∈ mounts → mountMatches (path m) (pathname req) = false) →
  (gateway W now store req).1 = (logRequest req).1 ++ [NotFound]
  ∧ outbound (gateway W now store req).1 = []
  ∧ responses (gateway W now store req).1 = [NotFound].
Proof.
  intros Ha Hq Hn. rewrite (gateway_admitted W now store req Ha Hq).
  unfold dispatch. rewrite (routeOf_none req Hn). cbn [finish fst].
  rewrite logged_outbound, logged_responses. repeat split; reflexivity.
Qed.

Lemma unrouted_is_404_witness :
  RateLimit.admits rateLimitOptions 5 ∅ Probe.stray = true
  ∧ printable Probe.stray
  ∧ subjectOf Demo.up Probe.stray = Some "u42"
  ∧ responses (gateway Demo.up 5 ∅ Probe.stray).1 = [NotFound].
Proof.
  assert (Ha : RateLimit.admits rateLimitOptions 5 ∅ Probe.stray = true)
    by (vm_compute; reflexivity).
  assert (Hq : printable Probe.stray) by (exists "[object Object]"; reflexivity).
  assert (Hn : ∀ m, m ∈ mounts → mountMatches (path m) (pathname Probe.stray) = false).
  { intros m Hm. unfold mounts in Hm.
    repeat (apply elem_of_cons in Hm as [->|Hm]);
      [..|apply elem_of_nil in Hm; contradiction]; reflexivity. }
  split; [exact Ha|]. split; [exact Hq|]. split; [reflexivity|].
  exact (proj2 (proj2 (unrouted_is_404 Demo.up 5 ∅ Probe.stray Ha Hq Hn))).
Defined.

(** X8.  Outside the media mount the gateway never forwards a body as
    it came: it sends [req.body] re-encoded, which is [{}] for a body
    [express.json()] did not read, and with the content type
    [application/json] whatever the inbound content type was, multipart
    included. *)
Theorem json_forced W now store req h o :
  Outbound h o ∈ (gateway W now store req).1 →
  mountMatches "/v1/media" (pathname req) = false →
  reqBody o = Encoded (bodyOf req)
  ∧ Js.get "Content-Type" (reqHeaders o) = Some "application/json"
  ∧ (Node.incoming (headers req) = true →
     Node.sentHeader "content-type" (reqHeaders o) = Some "application/json").
Proof.
  intros Hin Hnm.
  destruct (gateway_outbound W now store req h o Hin)
    as (m & req' & d & Hm & Hr & He & Hd & _ & -> & _).
  destruct (routeOf_mounts _ _ Hr) as [_ Hmatch].
  assert (Hp : path m ≠ "/v1/media").
  { intros E. rewrite E in Hmatch. congruence. }
  assert (S : ∀ (sent : Js.Obj),
             Node.incoming (headers req) = true →
             sent = HttpProxy.carriedHeaders req →
             Node.sentHeader "content-type" (Js.set "Content-Type" "application/json" sent)
             = Some "application/json").
  { intros sent Hi ->. rewrite set_fresh.
    - apply sentHeader_last. reflexivity.
    - intros Hk. apply (carried_lower _ _ Hi) in Hk. discriminate Hk. }
  rewrite sentFor_body, sentFor_get, sentFor_sent by discriminate.
  destruct He as [[Hg ->]|[Hg (subject & Hs & ->)]].
  - assert (m = {| path := "/v1/auth"; guarded := false;
                   host := IDENTITY_SERVICE_URL; options := identityOptions |}) as ->.
    { unfold mounts in Hm.
      repeat (apply elem_of_cons in Hm as [->|Hm]);
        [..|apply elem_of_nil in Hm; contradiction];
        first [discriminate Hg | reflexivity]. }
    injection Hd as <-. split; [reflexivity|]. split; [apply get_set_eq|].
    intros Hi. apply (S _ Hi). reflexivity.
  - rewrite (json_decorator m req subject Hm Hg Hp) in Hd. injection Hd as <-.
    split.
    { unfold mounts in Hm.
      repeat (apply elem_of_cons in Hm as [->|Hm]);
        [..|apply elem_of_nil in Hm; contradiction];
        first [discriminate Hg | contradiction Hp; reflexivity | reflexivity]. }
    split.
    + cbn [assignHeader withHeaders reqHeaders].
      rewrite get_set_ne by discriminate. apply get_set_eq.
    + intros Hi. cbn [assignHeader withHeaders reqHeaders].
      rewrite sentHeader_set_other by discriminate.
      apply (S _ Hi). reflexivity.
Qed.

Lemma json_forced_witness :
  Outbound IDENTITY_SERVICE_URL Probe.loginSent ∈ (gateway Demo.up 5 ∅ Probe.login).1
  ∧ mountMatches "/v1/media" (pathname Probe.login) = false
  ∧ Js.get "content-type" (headers Probe.login) = Some Demo.multipart
  ∧ Node.incoming (headers Probe.login) = true
  ∧ reqBody Probe.loginSent = Encoded (Js.Object [])
  ∧ Node.sentHeader "content-type" (reqHeaders Probe.loginSent) = Some "application/json".
Proof.
  assert (H : Outbound IDENTITY_SERVICE_URL Probe.loginSent
              ∈ (gateway Demo.up 5 ∅ Probe.login).1).
  { vm_compute. do 2 apply list_elem_of_further. apply list_elem_of_here. }
  assert (Hi : Node.incoming (headers Probe.login) = true) by (vm_compute; reflexivity).
  destruct (json_forced Demo.up 5 ∅ Probe.login _ _ H eq_refl) as (Hb & _ & Hs).
  split; [exact H|]. split; [reflexivity|]. split; [reflexivity|].
  split; [exact Hi|]. split; [exact Hb|exact (Hs Hi)].
Defined.

(** X9.  The auth mount has no [validateToken] and its decorator does
    not assign [x-user-id]: what the identity service receives under
    that name is whatever the caller sent, and nothing when the caller
    sent none. *)
Theorem auth_keeps_caller_identity W now store req h o :
  Outbound h o ∈ (gateway W now store req).1 →
  mountMatches "/v1/auth" (pathname req) = true →
  Node.incoming (headers req) = true →
  Node.sentHeader "x-user-id" (reqHeaders o) = Js.get "x-user-id" (headers req).
Proof.
  intros Hin Hmatch Hi.
  destruct (gateway_outbound W now store req h o Hin)
    as (m & req' & d & Hm & Hr & He & Hd & _ & -> & _).
  rewrite (routeOf_mount req _ auth_mounted Hmatch) in Hr. injection Hr as <-.
  destruct He as [[_ ->]|[Hg _]]; [|discriminate Hg].
  injection Hd as <-. rewrite sentFor_sent by discriminate.
  cbn [assignHeader withHeaders reqHeaders].
  rewrite sentHeader_set_other by discriminate.
  cbn [HttpProxy.buildProxyReq reqHeaders].
  rewrite carried_sent; [reflexivity|exact Hi|].
  unfold HttpProxy.skipHdrs. intros Hk. vm_compute in Hk.
  repeat (apply elem_of_cons in Hk as [Hk|Hk]; [discriminate Hk|]).
  apply elem_of_nil in Hk. contradiction.
Qed.

Lemma auth_keeps_caller_identity_witness :
  Outbound IDENTITY_SERVICE_URL Probe.loginSent ∈ (gateway Demo.up 5 ∅ Probe.login).1
  ∧ mountMatches "/v1/auth" (pathname Probe.login) = true
  ∧ Node.incoming (headers Probe.login) = true
  ∧ Node.sentHeader "x-user-id" (reqHeaders Probe.loginSent) = Some "admin".
Proof.
  assert (H : Outbound IDENTITY_SERVICE_URL Probe.loginSent
              ∈ (gateway Demo.up 5 ∅ Probe.login).1).
  { vm_compute. do 2 apply list_elem_of_further. apply list_elem_of_here. }
  assert (Hi : Node.incoming (headers Probe.login) = true) by (vm_compute; reflexivity).
  split; [exact H|]. split; [reflexivity|]. split; [exact Hi|].
  exact (auth_keeps_caller_identity Demo.up 5 ∅ Probe.login _ _ H eq_refl Hi).
Defined.

(** X10.  On every mount, an inbound header is sent on to the backend
    with its value unchanged unless it is one the proxy skips
    ([connection], [content-length], [host]), one a decorator of
    server.js assigns ([content-type], [x-user-id]) or one the proxy
    assigns itself for the body it encodes ([content-length],
    [accept-charset]).  In particular the caller's [authorization]
    header reaches the backend. *)
Theorem headers_carried W now store req h o n :
  Outbound h o ∈ (gateway W now store req).1 →
  Node.incoming (headers req) = true →
  Js.toLowerCase n ∉ HttpProxy.skipHdrs →
  Js.toLowerCase n ∉ decoratedNames →
  Js.toLowerCase n ∉ preparedNames →
  Node.sentHeader n (reqHeaders o) = Js.get (Js.toLowerCase n) (headers req).
Proof.
  intros Hin Hi Hs Hd Hp.
  destruct (gateway_outbound W now store req h o Hin)
    as (m & req' & d & Hm & _ & He & Hdec & _ & -> & _).
  destruct (entered_same W m req req' He) as (_ & Eh & _).
  destruct (decorator_frame m _ req' d Hm Hdec) as (_ & _ & _ & F).
  rewrite sentFor_sent, F.
  - cbn [HttpProxy.buildProxyReq reqHeaders].
    rewrite carried_sent; rewrite ?Eh; auto.
  - intros E. apply Hd. rewrite E. apply list_elem_of_here.
  - intros E. apply Hd. rewrite E. apply list_elem_of_further, list_elem_of_here.
  - intros E. apply Hp. rewrite E. apply list_elem_of_here.
  - intros E. apply Hp. rewrite E. apply list_elem_of_further, list_elem_of_here.
Qed.

Lemma headers_carried_witness :
  Outbound POST_SERVICE_URL Demo.forwarded ∈ (gateway Demo.up 5 ∅ Demo.posts42).1
  ∧ Node.incoming (headers Demo.posts42) = true
  ∧ (Js.toLowerCase "Authorization" ∉ HttpProxy.skipHdrs)
  ∧ (Js.toLowerCase "Authorization" ∉ decoratedNames)
  ∧ (Js.toLowerCase "Authorization" ∉ preparedNames)
  ∧ Node.sentHeader "Authorization" (reqHeaders Demo.forwarded) = Some "Bearer good".
Proof.
  assert (H : Outbound POST_SERVICE_URL Demo.forwarded
              ∈ (gateway Demo.up 5 ∅ Demo.posts42).1).
  { vm_compute. do 2 apply list_elem_of_further. apply list_elem_of_here. }
  assert (Hi : Node.incoming (headers Demo.posts42) = true) by (vm_compute; reflexivity).
  assert (Hs : Js.toLowerCase "Authorization" ∉ HttpProxy.skipHdrs).
  { intros Hin. vm_compute in Hin.
    repeat (apply elem_of_cons in Hin as [Hin|Hin]; [discriminate Hin|]).
    apply elem_of_nil in Hin. contradiction. }
  assert (Hd : Js.toLowerCase "Authorization" ∉ decoratedNames).
  { intros Hin. vm_compute in Hin.
    repeat (apply elem_of_cons in Hin as [Hin|Hin]; [discriminate Hin|]).
    apply elem_of_nil in Hin. contradiction. }
  assert (Hp : Js.toLowerCase "Authorization" ∉ preparedNames).
  { intros Hin. vm_compute in Hin.
    repeat (apply elem_of_cons in Hin as [Hin|Hin]; [discriminate Hin|]).
    apply elem_of_nil in Hin. contradiction. }
  split; [exact H|]. split; [exact Hi|]. split; [exact Hs|]. split; [exact Hd|].
  split; [exact Hp|].
  exact (headers_carried Demo.up 5 ∅ Demo.posts42 _ _ "Authorization" H Hi Hs Hd Hp).
Defined.

(** X11.  The path rewrite is idempotent: applied to a URL it has
    produced, it changes nothing.  A path already forwarded would not be
    rewritten a second time. *)
Theorem resolver_idempotent req req' :
  originalUrl req' = proxyReqPathResolver req →
  proxyReqPathResolver req' = proxyReqPathResolver req.
Proof.
  intros E. rewrite (resolver_spec req'), E, (resolver_spec req).
  destruct (stripPrefix "/v1" (originalUrl req)) as [rest|] eqn:Hs.
  - assert (R : substitutePrefix "/v1" "/api" (originalUrl req) = "/api" +:+ rest)
      by (unfold substitutePrefix; rewrite Hs; reflexivity).
    rewrite R. reflexivity.
  - assert (R : substitutePrefix "/v1" "/api" (originalUrl req) = originalUrl req)
      by (unfold substitutePrefix; rewrite Hs; reflexivity).
    rewrite !R. reflexivity.
Qed.

Lemma resolver_idempotent_witness :
  originalUrl Probe.again = proxyReqPathResolver Demo.posts42
  ∧ proxyReqPathResolver Probe.again = "/api/posts/42?x=1".
Proof.
  split; [reflexivity|].
  exact (resolver_idempotent Demo.posts42 Probe.again eq_refl).
Defined.

(** X12.  Under the gateway's prefix the rewrite loses nothing: two
    URLs that start with [/v1] and go out to the same path are the same
    URL. *)
Theorem resolver_injective req1 req2 :
  Js.startsWith (originalUrl req1) "/v1" = true →
  Js.startsWith (originalUrl req2) "/v1" = true →
  proxyReqPathResolver req1 = proxyReqPathResolver req2 →
  originalUrl req1 = originalUrl req2.
Proof.
  unfold Js.startsWith. intros H1 H2 E.
  apply prefix_inv in H1 as [rest1 E1]. apply prefix_inv in H2 as [rest2 E2].
  rewrite (resolver_v1 req1 rest1 E1), (resolver_v1 req2 rest2 E2) in E.
  apply append_cancel in E. rewrite E1, E2, E. reflexivity.
Qed.

Lemma resolver_injective_witness :
  Js.startsWith (originalUrl Demo.posts42) "/v1" = true
  ∧ Js.startsWith (originalUrl Demo.anonymous) "/v1" = true
  ∧ proxyReqPathResolver Demo.posts42 = proxyReqPathResolver Demo.anonymous
  ∧ originalUrl Demo.posts42 = originalUrl Demo.anonymous.
Proof.
  split; [reflexivity|]. split; [reflexivity|]. split; [reflexivity|].
  exact (resolver_injective Demo.posts42 Demo.anonymous eq_refl eq_refl eq_refl).
Defined.

(** X13.  The mounts are matched on the path Express parses from the
    URL and without regard to letter case, the rewrite on the URL as it
    came and with regard to it: the path of every forwarded request
    starts with [/v1] in some casing, and a URL that does not start
    with [/v1] in lower case, such as [/V1/posts/42] or one in absolute
    form, is forwarded as it came. *)
Theorem other_case_not_rewritten W now store req h o :
  Outbound h o ∈ (gateway W now store req).1 →
  Js.toLowerCase (String.substring 0 3 (pathname req)) = "/v1"
  ∧ (Js.startsWith (originalUrl req) "/v1" = false → reqPath o = originalUrl req).
Proof.
  intros Hin.
  destruct (gateway_outbound W now store req h o Hin)
    as (m & req' & d & Hm & Hr & He & _ & _ & -> & _).
  destruct (routeOf_mounts _ _ Hr) as [_ Hmatch].
  destruct (entered_same W m req req' He) as (Eu & _).
  split.
  - apply lowered_prefix.
    exact (prefix_trans _ _ _ (mounts_under_v1 m Hm) (mountMatches_prefix _ _ Hmatch)).
  - unfold Js.startsWith. intros Hn. rewrite sentFor_path.
    rewrite resolver_spec, Eu. unfold substitutePrefix.
    destruct (stripPrefix "/v1" (originalUrl req)) as [rest|] eqn:Hs; [|reflexivity].
    exfalso.
    pose proof (stripPrefix_inv _ _ _ Hs) as E.
    rewrite E, prefix_append in Hn. discriminate Hn.
Qed.

Lemma other_case_not_rewritten_witness :
  Outbound POST_SERVICE_URL Probe.shoutedSent ∈ (gateway Demo.up 5 ∅ Probe.shouted).1
  ∧ Js.startsWith (originalUrl Probe.shouted) "/v1" = false
  ∧ reqPath Probe.shoutedSent = "/V1/posts/42?x=1"
  ∧ ∃ o, Outbound POST_SERVICE_URL o ∈ (gateway Demo.up 5 ∅ Probe.absolute).1
         ∧ reqPath o = "http://gateway/v1/posts/42".
Proof.
  assert (H : Outbound POST_SERVICE_URL Probe.shoutedSent
              ∈ (gateway Demo.up 5 ∅ Probe.shouted).1).
  { vm_compute. do 2 apply list_elem_of_further. apply list_elem_of_here. }
  split; [exact H|]. split; [reflexivity|].
  split; [exact (proj2 (other_case_not_rewritten Demo.up 5 ∅ Probe.shouted _ _ H) eq_refl)|].
  eexists.
  assert (H' : Outbound POST_SERVICE_URL
                 (sentFor Demo.up (withUser {| userId := "u42" |} Probe.absolute)
                    (assignHeader "x-user-id" "u42"
                       (assignHeader "Content-Type" "application/json"
                          (HttpProxy.buildProxyReq postOptions "/v1/posts"
                             (withUser {| userId := "u42" |} Probe.absolute)))))
               ∈ (gateway Demo.up 5 ∅ Probe.absolute).1).
  { vm_compute. do 2 apply list_elem_of_further. apply list_elem_of_here. }
  split; [exact H'|].
  exact (proj2 (other_case_not_rewritten Demo.up 5 ∅ Probe.absolute _ _ H') eq_refl).
Defined.

(** X14.  A client address can cause at most 100 backend calls in a
    window: served from a state in which the client has no open window,
    a sequence of arrivals in which the client's requests all fall
    within the 15 minutes from [t0] makes at most 100 calls for that
    client, however many requests it sends and whatever the others
    do. *)
Theorem backend_budget W (client : string) (t0 : Z) store
    (arrivals : list (Z * Request)) :
  (∀ c, store !! client = Some c → (RateLimit.resetTime c ≤ t0)%Z) →
  Forall (fun a => ip a.2 = client → (t0 ≤ a.1 < t0 + 15 * 60 * 1000)%Z) arrivals →
  length (callsFor client (serve W store arrivals)) ≤ 100.
Proof.
  intros Hs Hin.
  etransitivity; [apply calls_admitted|].
  pose proof (admissions_bound 100
                (RateLimit.decisionsFor client
                   (RateLimit.decisions rateLimitOptions store arrivals)) 0) as B.
  rewrite Nat.sub_0_r in B. apply B. intros i d Hd.
  exact (decisions_fresh rateLimitOptions client t0 arrivals store Hs Hin i d Hd).
Qed.

Lemma backend_budget_witness :
  length (List.filter (fun a => String.eqb (ip a.2) "10.0.0.7") Demo.burst) = 101
  ∧ length (callsFor "10.0.0.7" (serve Demo.up ∅ Demo.burst)) ≤ 100.
Proof.
  assert (H1 : ∀ c, (∅ : gmap string RateLimit.Counter) !! "10.0.0.7" = Some c →
               (RateLimit.resetTime c ≤ 0)%Z).
  { intros c Hc. rewrite lookup_empty in Hc. discriminate Hc. }
  assert (H2 : Forall
                 (fun a : Z * Request =>
                    ip a.2 = "10.0.0.7" → (0 ≤ a.1 < 0 + 15 * 60 * 1000)%Z)
                 Demo.burst).
  { apply Forall_cons. split; [intros E; discriminate E|].
    apply Forall_replicate. intros _. simpl. lia. }
  split; [vm_compute; reflexivity|].
  exact (backend_budget Demo.up "10.0.0.7" 0 ∅ Demo.burst H1 H2).
Defined.

(** X15.  Clients do not weigh on each other's quota: the limiter's
    decisions on a client's requests are the ones it would take if that
    client's requests were the only ones to arrive. *)
Theorem quota_isolated (client : string) store (arrivals : list (Z * Request)) :
  RateLimit.decisionsFor client (RateLimit.decisions rateLimitOptions store arrivals)
  = RateLimit.decisionsFor client
      (RateLimit.decisions rateLimitOptions store (arrivalsOf client arrivals)).
Proof. apply decisions_local. reflexivity. Qed.

(** X16.  At most one mount matches a request, so the order of the
    five [app.use] calls decides nothing. *)
Theorem mounts_disjoint req m1 m2 :
  m1 ∈ mounts → m2 ∈ mounts →
  mountMatches (path m1) (pathname req) = true →
  mountMatches (path m2) (pathname req) = true →
  m1 = m2.
Proof.
  intros H1 H2 M1 M2.
  pose proof (routeOf_mount req m1 H1 M1) as R1.
  pose proof (routeOf_mount req m2 H2 M2) as R2.
  congruence.
Qed.

Lemma mounts_disjoint_witness :
  mountMatches "/v1/media" (pathname Demo.upload) = true
  ∧ routeOf Demo.upload
    = Some {| path := "/v1/media"; guarded := true;
              host := MEDIA_SERVICE_URL; options := mediaOptions |}.
Proof.
  split; [reflexivity|].
  destruct (routeOf Demo.upload) as [m|] eqn:E; [|discriminate E].
  destruct (routeOf_mounts _ _ E) as [Hm Hmatch].
  f_equal.
  exact (mounts_disjoint Demo.upload m _ Hm media_mounted Hmatch eq_refl).
Defined.

(** X17.  The decorators of the four mounts behind [validateToken] read
    [srcReq.user.userId] without a check: run on a request that has no
    [req.user], the proxy makes no call and answers through the error
    handler with the TypeError's message. *)
Theorem decorators_need_user W m req :
  m ∈ mounts → guarded m = true → user req = None →
  HttpProxy.proxy W (host m) (options m) (path m) req
  = proxyErrorHandler (Js.readOfUndefined "userId").
Proof.
  intros Hin Hg Hu. unfold mounts in Hin.
  repeat (apply elem_of_cons in Hin as [->|Hin]);
    [..|apply elem_of_nil in Hin; contradiction];
    try discriminate Hg;
    unfold HttpProxy.proxy;
    cbn [options HttpProxy.proxyReqOptDecorator HttpProxy.proxyErrorHandler
         postOptions mediaOptions searchOptions profileOptions];
    unfold userIdOf; rewrite Hu; reflexivity.
Qed.

Lemma decorators_need_user_witness :
  user Demo.posts42 = None
  ∧ HttpProxy.proxy Demo.up POST_SERVICE_URL postOptions "/v1/posts" Demo.posts42
    = [ Log Err "Proxy error: Cannot read properties of undefined (reading 'userId')";
        SendJson 500
          (internalServerError
             "Cannot read properties of undefined (reading 'userId')") ].
Proof.
  split; [reflexivity|].
  refine (decorators_need_user Demo.up
            {| path := "/v1/posts"; guarded := true;
               host := POST_SERVICE_URL; options := postOptions |}
            Demo.posts42 _ eq_refl eq_refl).
  unfold mounts. apply list_elem_of_further, list_elem_of_here.
Defined.

(** X18.  In the gateway that never happens, [validateToken] having
    attached the user: for a request as it enters a mount, as it came
    on [/v1/auth] and with the verified identity behind
    [validateToken], a request decorator throws only on the media
    mount, only when the request has no Content-Type header, and then
    with the TypeError of reading [startsWith] of [undefined]. *)
Theorem only_media_throws W m req req' err :
  m ∈ mounts →
  entered W m req req' →
  HttpProxy.proxyReqOptDecorator (options m)
    (HttpProxy.buildProxyReq (options m) (path m) req') req' = Js.Throw err →
  path m = "/v1/media"
  ∧ Js.get "content-type" (headers req) = None
  ∧ err = Js.readOfUndefined "startsWith".
Proof.
  intros Hm He Hd.
  destruct He as [[Hg ->]|[Hg (subject & Hs & ->)]].
  - exfalso. unfold mounts in Hm.
    repeat (apply elem_of_cons in Hm as [->|Hm]);
      [..|apply elem_of_nil in Hm; contradiction];
      first [discriminate Hg | discriminate Hd].
  - destruct (decide (path m = "/v1/media")) as [Hp|Hp].
    + split; [exact Hp|].
      rewrite (media_mount m Hm Hp) in Hd.
      cbn [options path] in Hd. rewrite media_decorator in Hd.
      destruct (Js.get "content-type" (headers req)) as [contentType|];
        [discriminate Hd|].
      injection Hd as <-. split; reflexivity.
    + rewrite (json_decorator m req subject Hm Hg Hp) in Hd. discriminate Hd.
Qed.

Lemma only_media_throws_witness :
  entered Demo.up
    {| path := "/v1/media"; guarded := true;
       host := MEDIA_SERVICE_URL; options := mediaOptions |}
    Demo.listing (withUser {| userId := "u42" |} Demo.listing)
  ∧ HttpProxy.proxyReqOptDecorator mediaOptions
      (HttpProxy.buildProxyReq mediaOptions "/v1/media"
         (withUser {| userId := "u42" |} Demo.listing))
      (withUser {| userId := "u42" |} Demo.listing)
    = Js.Throw (Js.readOfUndefined "startsWith")
  ∧ Js.get "content-type" (headers Demo.listing) = None.
Proof.
  assert (He : entered Demo.up
                 {| path := "/v1/media"; guarded := true;
                    host := MEDIA_SERVICE_URL; options := mediaOptions |}
                 Demo.listing (withUser {| userId := "u42" |} Demo.listing)).
  { right. split; [reflexivity|]. exists "u42". split; reflexivity. }
  split; [exact He|]. split; [reflexivity|].
  exact (proj1 (proj2 (only_media_throws Demo.up _ _ _ _ media_mounted He eq_refl))).
Defined.

(** X19.  A URL that starts with [/v1] in lower case is forwarded with
    that prefix replaced by [/api] and what follows it, query string
    included, as it came: [/v1/posts/42?x=1] goes out as
    [/api/posts/42?x=1].  Any other URL the gateway forwards goes out
    as it came. *)
Theorem lowercase_prefix_rewritten W now store req h o :
  Outbound h o ∈ (gateway W now store req).1 →
  reqPath o = substitutePrefix "/v1" "/api" (originalUrl req)
  ∧ (∀ rest, originalUrl req = "/v1" +:+ rest → reqPath o = "/api" +:+ rest)
  ∧ (originalUrl req = "/v1/posts/42?x=1" → reqPath o = "/api/posts/42?x=1").
Proof.
  intros Hin.
  destruct (gateway_outbound W now store req h o Hin)
    as (m & req' & d & _ & _ & He & _ & _ & -> & _).
  destruct (entered_same W m req req' He) as (Eu & _).
  assert (R : ∀ rest, originalUrl req = "/v1" +:+ rest →
              reqPath (sentFor W req' d) = "/api" +:+ rest).
  { intros rest E. rewrite sentFor_path. apply resolver_v1. rewrite Eu. exact E. }
  split; [|split].
  - rewrite sentFor_path, resolver_spec, Eu. reflexivity.
  - exact R.
  - intros E. apply (R "/posts/42?x=1"). exact E.
Qed.

Lemma lowercase_prefix_rewritten_witness :
  Outbound POST_SERVICE_URL Demo.forwarded ∈ (gateway Demo.up 5 ∅ Demo.posts42).1
  ∧ reqPath Demo.forwarded = "/api/posts/42?x=1".
Proof.
  assert (H : Outbound POST_SERVICE_URL Demo.forwarded
              ∈ (gateway Demo.up 5 ∅ Demo.posts42).1).
  { vm_compute. do 2 apply list_elem_of_further. apply list_elem_of_here. }
  split; [exact H|].
  exact (proj2 (proj2 (lowercase_prefix_rewritten Demo.up 5 ∅ Demo.posts42 _ _ H)) eq_refl).
Defined.

End MoreClaims.
